(** * Kickq: the job state machine and the worker control loop

    A shallow embedding of the core of kickq (lib/model/job.model.js,
    lib/ctrl/create.js, lib/ctrl/worker.ctrl.js) together with the
    properties of the job life cycle: outcome classification, the retry
    and ghost transitions, terminal bookkeeping, fetch, the ordering of
    outcome persistence, late completion callbacks, create's failure
    handling and the master-loop throttle.

    Conventions.  JavaScript objects that the code mutates in place are
    records that every function takes and returns.  Calls into Redis, into
    timers and into collaborators are recorded, in program order, as a
    list of effects.  Every reading of [Date.now()] is an explicit
    argument (milliseconds, an integer). *)

From Stdlib Require Import ZArith Lia.
From stdpp Require Import base option list gmap strings pretty.

Open Scope Z_scope.

(** ** JavaScript values

    The dynamically typed arguments of the worker's callbacks: the error
    argument of [done(err)], a promise's resolution value, the argument of
    the master loop.  [JError] is an [Error] instance, [JObject] any other
    object; both are neither strings nor booleans, and both are truthy. *)

Inductive jsval : Type :=
  | JUndefined
  | JNull
  | JBool (b : bool)
  | JNumber (n : Z)
  | JString (s : string)
  | JError (message : string)
  | JObject (descr : string).

#[global] Instance jsval_eq_dec : EqDecision jsval.
Proof. solve_decision. Defined.

(** [_.isString], [_.isBoolean] of underscore. *)
Definition isString (v : jsval) : bool :=
  match v with JString _ => true | _ => false end.

Definition isBoolean (v : jsval) : bool :=
  match v with JBool _ => true | _ => false end.

(** The test [_.isString(v) && v.length]: a string that is not empty. *)
Definition isString_and_length (v : jsval) : bool :=
  match v with
  | JString s => negb (Nat.eqb (String.length s) 0)
  | _ => false
  end.

(** ToBoolean: what [if (v)], [!v] and [a && b] test. *)
Definition truthy (v : jsval) : bool :=
  match v with
  | JUndefined | JNull => false
  | JBool b => b
  | JNumber n => negb (n =? 0)
  | JString s => negb (Nat.eqb (String.length s) 0)
  | JError _ | JObject _ => true
  end.

(** ** States *)

Module States.

(** Modelled from the spec: the module [./states] is missing; section
    3.1 lists the values of a job's state and section 3.2 those of a
    process item. *)
Inductive Job : Type :=
  | NEW | DELAYED | QUEUED | PROCESSING | RETRY | GHOST | SUCCESS | FAIL.

Inductive Process : Type :=
  | P_PROCESSING | P_SUCCESS | P_FAIL | P_GHOST.

#[global] Instance Job_eq_dec : EqDecision Job.
Proof. solve_decision. Defined.

#[global] Instance Process_eq_dec : EqDecision Process.
Proof. solve_decision. Defined.

(** Terminal states of section 4.2: no further transition. *)
Definition terminal (s : Job) : bool :=
  match s with SUCCESS | FAIL => true | _ => false end.

End States.

(** ** Process items and job items *)

Module ProcessItem.

(** The fields the worker and the job model read and write:
    [processItem.timeout], [.processTime], [.startTime], [.state],
    [.errorMessage]; [count] is the attempt number of section 3.2.
    [processTime] is [None] (null) until the attempt has finished;
    [timeout] holds the handle that [setTimeout] returned. *)
Record t : Type := mk {
  count : nat;
  startTime : Z;
  processTime : option Z;
  state : States.Process;
  errorMessage : jsval;
  timeout : option nat
}.

Definition set_timeout (h : option nat) (p : t) : t :=
  mk (count p) (startTime p) (processTime p) (state p) (errorMessage p) h.

Definition set_processTime (d : option Z) (p : t) : t :=
  mk (count p) (startTime p) d (state p) (errorMessage p) (timeout p).

Definition set_state (s : States.Process) (p : t) : t :=
  mk (count p) (startTime p) (processTime p) s (errorMessage p) (timeout p).

Definition set_errorMessage (e : jsval) (p : t) : t :=
  mk (count p) (startTime p) (processTime p) (state p) e (timeout p).

End ProcessItem.

Module JobItem.

(** The job record of section 3.1, restricted to the fields that the
    three source files touch.  [id] is null until [create] allocates it;
    [state] is whatever was last assigned, which after a fetch is the
    value Redis returned for the hash field (null when the field is
    missing); [finishTime] and [totalProcessTime] are null until the job
    finishes. *)
Record t : Type := mk {
  id : option string;
  name : string;
  data : jsval;
  state : option States.Job;
  createTime : Z;
  retry : bool;
  retryTimes : Z;
  ghostRetry : bool;
  ghostTimes : Z;
  processTimeout : Z;
  runs : list ProcessItem.t;
  complete : bool;
  success : bool;
  finishTime : option Z;
  totalProcessTime : option Z;
  lastError : jsval
}.

Definition set_id (i : option string) (j : t) : t :=
  mk i (name j) (data j) (state j) (createTime j) (retry j) (retryTimes j)
     (ghostRetry j) (ghostTimes j) (processTimeout j) (runs j)
     (complete j) (success j) (finishTime j) (totalProcessTime j)
     (lastError j).

Definition set_state (s : option States.Job) (j : t) : t :=
  mk (id j) (name j) (data j) s (createTime j) (retry j) (retryTimes j)
     (ghostRetry j) (ghostTimes j) (processTimeout j) (runs j)
     (complete j) (success j) (finishTime j) (totalProcessTime j)
     (lastError j).

Definition set_runs (r : list ProcessItem.t) (j : t) : t :=
  mk (id j) (name j) (data j) (state j) (createTime j) (retry j) (retryTimes j)
     (ghostRetry j) (ghostTimes j) (processTimeout j) r
     (complete j) (success j) (finishTime j) (totalProcessTime j)
     (lastError j).

Definition set_lastError (e : jsval) (j : t) : t :=
  mk (id j) (name j) (data j) (state j) (createTime j) (retry j) (retryTimes j)
     (ghostRetry j) (ghostTimes j) (processTimeout j) (runs j)
     (complete j) (success j) (finishTime j) (totalProcessTime j) e.

(** The four assignments of [_finishJob], at once. *)
Definition set_finished (c s : bool) (st : option States.Job)
    (ft tp : option Z) (j : t) : t :=
  mk (id j) (name j) (data j) st (createTime j) (retry j) (retryTimes j)
     (ghostRetry j) (ghostTimes j) (processTimeout j) (runs j)
     c s ft tp (lastError j).

(** Modelled from the spec: [JobItem.ProcessItem], the constructor of a
    process item, is missing.  Section 3.2: one entry per dispatch
    attempt, [count] the 1-based attempt number, [startTime] the start of
    the attempt, state [PROCESSING].  The item is not yet part of [runs]:
    [_workFinish] adds it with [addProcessItem]. *)
Definition ProcessItem (job : t) (now : Z) : ProcessItem.t :=
  ProcessItem.mk (S (length (runs job))) now None States.P_PROCESSING
    JNull None.

(** Modelled from the spec: [JobItem.prototype.addProcessItem] is
    missing.  Section 3.1: [runs] is the ordered sequence of process
    items, one per attempt; section 4.2: the saved record contains the
    appended process item. *)
Definition addProcessItem (p : ProcessItem.t) (job : t) : t :=
  set_runs (runs job ++ [p]) job.

(** Modelled from the spec: [JobItem.prototype.getPublic] is missing.
    Section 6.2: a read-only view of the record, without internal fields;
    every field of this record is a declared one. *)
Definition getPublic (job : t) : t := job.

End JobItem.


(** ** Errors and completions *)

Module kError.

(** The error classes of [../utility/kerror] that the three files
    construct.  In the words of the specification: [Database] is the
    StorageError, [NoRecord] is NotFound, [JSON] is Corrupt. *)
Inductive t : Type :=
  | Database (err : jsval)
  | NoRecord (jobId : option string) (message : option string)
  | JSON (ex : string).

End kError.

(** What a promise is rejected with: one of kickq's own error objects, or
    any value that user code threw. *)
Inductive reason : Type :=
  | Typed (e : kError.t)
  | Raised (v : jsval).

(** A settled promise. *)
Inductive settled (A : Type) : Type :=
  | Resolved (a : A)
  | Rejected (r : reason).

Arguments Resolved {A} a.
Arguments Rejected {A} r.

(** The state of a deferred: pending until the first [resolve] or
    [reject]; later calls do not change it. *)
Inductive deferred (A : Type) : Type :=
  | Pending
  | Settled (s : settled A).

Arguments Pending {A}.
Arguments Settled {A} s.

Definition settle {A : Type} (s : settled A) (d : deferred A) : deferred A :=
  match d with
  | Pending => Settled s
  | Settled _ => d
  end.

(** Exceptions raised with [throw]. *)
Inductive exn : Type :=
  | TypeError (message : string)
  | Error (message : string)
  | Thrown (v : jsval).

(** How a synchronous call ends. *)
Inductive completion (A : Type) : Type :=
  | Return (a : A)
  | Throw (e : exn).

Arguments Return {A} a.
Arguments Throw {A} e.

(** ** lib/model/job.model.js *)

Module JobModel.

Record t : Type := mk {
  job : option JobItem.t;
  jobId : option string;
  hasJobItem : bool
}.

(** What a caller can pass to the constructor: any JavaScript value, or an
    instance of [JobItem] (the only values for which
    [jobItem instanceof JobItem] holds). *)
Inductive ctor_arg : Type :=
  | ArgValue (v : jsval)
  | ArgJobItem (j : JobItem.t).

(** [var JobModel = module.exports = function( jobItem )] *)
Definition JobModel (jobItem : ctor_arg) : completion t :=
  match jobItem with
  | ArgValue (JString s) =>
      if negb (Nat.eqb (String.length s) 0)
      then Return (mk None (Some s) false)
      else Throw (TypeError "Argument not string or Kickq.JobItem")
  | ArgValue _ => Throw (TypeError "Argument not string or Kickq.JobItem")
  | ArgJobItem j => Return (mk (Some j) (JobItem.id j) true)
  end.

(** Commands sent to the Redis client. *)
Inductive redis_cmd : Type :=
  | HMGET (key : string) (fields : list string)
  | INCR (key : string)
  | ZADD (key : string) (score : Z) (member : option string).

(** [JobModel.prototype.fetch]: the commands issued before the promise is
    returned, or the exception thrown. *)
Definition fetch (NS : string) (m : t) : completion (list redis_cmd) :=
  if hasJobItem m then Throw (Error "Instance already contains a job item")
  else match jobId m with
       | None => Throw (Error "No job id has been defined")
       | Some i =>
           Return [HMGET (NS +:+ ":job:" +:+ i) ["itemData"; "state"]]
       end.

(** What [JSON.parse] returns when it does not throw: [null], or an
    object, identified with the record of its fields. *)
Inductive json : Type :=
  | JsonNull
  | JsonObject (o : JobItem.t).

Section Fetch.

(** [JSON.parse]; [inl ex] when it throws [ex]. *)
Variable JSON_parse : string -> string + json.

(** Modelled from the spec: the constructor [JobItem] of
    [../model/job.item] is missing; given a plain object it builds the
    record with that object's fields (section 4.1: fetch deserializes
    itemData as the canonical record). *)
Definition new_JobItem (o : JobItem.t) : JobItem.t := o.

(** [JobModel.prototype._fetchResponse]: [err] and [response] are the
    arguments of the Redis callback, [response] being the pair
    [itemData, state] of the two hash fields (null for a missing one).
    Returns the model and the state of the promise, or the exception that
    escapes. *)
Definition _fetchResponse (m : t) (err : jsval)
    (response : option string * option States.Job)
    : completion (t * settled JobItem.t) :=
  if truthy err then Return (m, Rejected (Typed (kError.Database err)))
  else
    let itemData := fst response in
    let state := snd response in
    match itemData with
    | None => Return (m, Rejected (Typed (kError.NoRecord (jobId m) None)))
    | Some itemData =>
        match JSON_parse itemData with
        | inl ex => Return (m, Rejected (Typed (kError.JSON ex)))
        | inr JsonNull =>
            Throw (TypeError "Cannot set property 'state' of null")
        | inr (JsonObject jobItem) =>
            (* record state trumps itemData *)
            let jobItem := JobItem.set_state state jobItem in
            let m := mk (Some (new_JobItem jobItem)) (jobId m) (hasJobItem m) in
            (* sanity check *)
            if negb (bool_decide (jobId m = JobItem.id (new_JobItem jobItem)))
            then Return (m, Rejected (Typed (kError.NoRecord (jobId m)
                   (Some "Fetched jobId does not match fetched one"))))
            else
              Return (mk (job m) (jobId m) true,
                      Resolved (new_JobItem jobItem))
        end
    end.

End Fetch.

(** [JobModel.prototype._finishJob]; [now] is [Date.now()].  The loop
    adds each [processTime] to a number: a null one adds 0. *)
Definition _finishJob (now : Z) (outcome : bool) (job : JobItem.t)
    : JobItem.t :=
  let state := if outcome then States.SUCCESS else States.FAIL in
  let totalProcessTime :=
    foldl (fun acc processItem =>
             acc + default 0 (ProcessItem.processTime processItem))
          0 (JobItem.runs job) in
  JobItem.set_finished true outcome (Some state) (Some now)
    (Some totalProcessTime) job.

(** [JobModel.prototype._processedError] *)
Definition _processedError (now : Z) (job : JobItem.t) : JobItem.t :=
  if negb (JobItem.retry job) then _finishJob now false job
  else if Z.of_nat (length (JobItem.runs job)) <? JobItem.retryTimes job
  then JobItem.set_state (Some States.RETRY) job
  else _finishJob now false job.

(** [JobModel.prototype._processedTimeout] *)
Definition _processedTimeout (now : Z) (job : JobItem.t) : JobItem.t :=
  if negb (JobItem.ghostRetry job) then _finishJob now false job
  else
    let ghostCount :=
      foldl (fun ghostCount processItem =>
               if bool_decide (States.P_GHOST = ProcessItem.state processItem)
               then ghostCount + 1 else ghostCount)
            0 (JobItem.runs job) in
    if ghostCount >? JobItem.ghostTimes job then _finishJob now false job
    else JobItem.set_state (Some States.GHOST) job.

(** *** Promise chains

    [processed] and [create] build their result with chains of the form
    [p.then(step, def.reject)].  The steps are asynchronous calls into
    collaborators; each call is recorded, and what it settles with is
    given by the environment. *)

(** Calls that start an asynchronous storage operation: the methods of
    the job item and of the queue model, and commands of the Redis client.
    A call on the job item carries the record as it is when the call is
    made. *)
Inductive call : Type :=
  | SetState (job : JobItem.t) (newState : option States.Job)
  | Save (job : JobItem.t)
  | CreateState (job : JobItem.t)
  | CreateTimeIndex (job : JobItem.t)
  | QueueSave (job : JobItem.t)
  | Redis (c : redis_cmd).

(** The environment of a chain.
    - [collaborator c]: what the promise returned by the method call [c]
      of the job item or of the queue model settles with, [None] for
      fulfilled.
    - [redis_err c]: the [err] argument that the callback of the Redis
      command [c] receives (null when the command succeeded).
    - [incr_id]: the number [INCR] answers with, an integer in the
      range in which a JavaScript number is exact (below 2^53): there
      [id + ''] is its decimal form, which [pretty] gives.  Beyond that
      range the cast of [create] is not modelled.
    - [reject_returns_promise]: what [deferred.reject] returns.  In
      when.js 2.x it returns the rejected promise, so that a rejection
      handler [def.reject] leaves the derived promise rejected; [false]
      stands for a library in which it returns [undefined]. *)
Record env : Type := mk_env {
  collaborator : call -> option reason;
  redis_err : redis_cmd -> jsval;
  incr_id : Z;
  reject_returns_promise : bool
}.

Record chain_state : Type := mk_chain {
  cs_job : JobItem.t;
  cs_calls : list call;
  cs_def : deferred unit
}.

Definition M (A : Type) : Type := chain_state -> A * chain_state.

Definition ret {A : Type} (a : A) : M A := fun s => (a, s).

Definition bind {A B : Type} (m : M A) (k : A -> M B) : M B :=
  fun s => let (a, s') := m s in k a s'.

Notation "'do' x <- m ; k" := (bind m (fun x => k))
  (at level 10, x name, m at level 100, k at level 200).

Definition to_settled (r : option reason) : settled unit :=
  match r with
  | None => Resolved ()
  | Some e => Rejected e
  end.

(** A method call on [this.job] that returns a promise. *)
Definition job_call (E : env) (c : JobItem.t -> call) : M (settled unit) :=
  fun s =>
    (to_settled (collaborator E (c (cs_job s))),
     mk_chain (cs_job s) (cs_calls s ++ [c (cs_job s)]) (cs_def s)).

(** Modelled from the spec: [JobItem.prototype.setState] is missing.
    Section 4.1: [updateStateIndex(record, newState)] moves the record
    from the index of its current state to the one of [newState]; the
    record holds the new state afterwards. *)
Definition job_setState (E : env) (newState : option States.Job)
    : M (settled unit) :=
  fun s =>
    let c := SetState (cs_job s) newState in
    (to_settled (collaborator E c),
     mk_chain (JobItem.set_state newState (cs_job s))
              (cs_calls s ++ [c]) (cs_def s)).

(** [JobModel.prototype._saveQueue]: [new Queue(this.job).save()]. *)
Definition _saveQueue (E : env) : M (settled unit) :=
  job_call E QueueSave.

(** [JobModel.prototype._saveTimeIndex] *)
Definition _saveTimeIndex (E : env) (NS : string) : M (settled unit) :=
  fun s =>
    let c := ZADD (NS +:+ ":time-index") (JobItem.createTime (cs_job s))
               (JobItem.id (cs_job s)) in
    let err := redis_err E c in
    (if truthy err then Rejected (Typed (kError.Database err))
     else Resolved (),
     mk_chain (cs_job s) (cs_calls s ++ [Redis c]) (cs_def s)).

Definition def_resolve : M (settled unit) :=
  fun s =>
    (Resolved (),
     mk_chain (cs_job s) (cs_calls s) (settle (Resolved ()) (cs_def s))).

Definition def_reject (E : env) (r : reason) : M (settled unit) :=
  fun s =>
    (if reject_returns_promise E then Rejected r else Resolved (),
     mk_chain (cs_job s) (cs_calls s) (settle (Rejected r) (cs_def s))).

(** [p.then(onFulfilled, onRejected)], for a promise [p] that has
    settled: the derived promise follows what the handler returns. *)
Definition then_ (p : settled unit) (onFulfilled : M (settled unit))
    (onRejected : reason -> M (settled unit)) : M (settled unit) :=
  match p with
  | Resolved _ => onFulfilled
  | Rejected r => onRejected r
  end.

(** The branch of [processed] that computes the next state (the
    [if (success) ... else ...] block). *)
Definition processed_branch (now : Z) (success optTimeout : bool)
    (job : JobItem.t) : JobItem.t :=
  if success then _finishJob now true job
  else if optTimeout then _processedTimeout now job
  else _processedError now job.

(** [JobModel.prototype.processed]; [now] is the reading of [Date.now()]
    in [_finishJob].  The result holds the job item, the calls made, in
    order, and the state of the returned deferred. *)
Definition processed (E : env) (now : Z) (success optTimeout : bool)
    (job : JobItem.t) : chain_state :=
  (* store the old state of the job *)
  let state := JobItem.state job in
  let job := processed_branch now success optTimeout job in
  (* get new and restore old state so setState() can run *)
  let newState := JobItem.state job in
  let job := JobItem.set_state state job in
  snd ((do a <- job_setState E newState ;
        do b <- then_ a (job_call E Save) (def_reject E) ;
        do finalPromise <- then_ b (_saveQueue E) (def_reject E) ;
        then_ finalPromise def_resolve (def_reject E))
       (mk_chain job [] Pending)).

(** [JobModel.prototype.create] *)
Definition create (E : env) (NS : string) (job : JobItem.t) : chain_state :=
  let c := INCR (NS +:+ ":id") in
  let err := redis_err E c in
  let s := mk_chain job [Redis c] Pending in
  if truthy err
  then snd (def_reject E (Typed (kError.Database err)) s)
  else
    (* cast to string *)
    let s := mk_chain (JobItem.set_id (Some (pretty (incr_id E))) job)
                      [Redis c] Pending in
    snd ((do a <- job_call E Save ;
          do b <- then_ a (job_call E CreateState) (def_reject E) ;
          do c <- then_ b (job_call E CreateTimeIndex) (def_reject E) ;
          do d <- then_ c (_saveQueue E) (def_reject E) ;
          do e <- then_ d (_saveTimeIndex E NS) (def_reject E) ;
          then_ e def_resolve (def_reject E)) s).

End JobModel.

(** ** lib/ctrl/create.js *)

Module Create.

(** The two ways the user's callback is invoked: [done(null, publicJobItem,
    ...)] and [done(ex)]. *)
Inductive done_args : Type :=
  | DoneOk (publicJobItem : JobItem.t)
  | DoneErr (ex : reason).

(** [done] is the user's callback ([noop] when none was given): [Some v]
    when the call throws [v]. *)
Record t : Type := mk {
  defer : deferred JobItem.t;
  job : option JobItem.t;
  done : done_args -> option jsval;
  _disposed : bool
}.

Definition noop (_ : done_args) : option jsval := None.

Definition set_defer (d : deferred JobItem.t) (c : t) : t :=
  mk d (job c) (done c) (_disposed c).

(** [Create.prototype._onSuccess]; returns the instance and how the call
    ends. *)
Definition _onSuccess (c : t) : t * completion unit :=
  if _disposed c then (c, Return ())
  else
    match job c with
    | None => (c, Throw (TypeError "Cannot read property 'getPublic' of null"))
    | Some j =>
        let publicJobItem := JobItem.getPublic j in
        (* ground callback exceptions *)
        match done c (DoneOk publicJobItem) with
        | Some ex =>
            (set_defer (settle (Rejected (Raised ex)) (defer c)) c, Return ())
        | None =>
            (set_defer (settle (Resolved publicJobItem) (defer c)) c,
             Return ())
        end
    end.

(** [Create.prototype._onFail]: the [finally] block rejects with the
    function's argument [ex]; an exception of the callback is thrown
    again by the [catch] block and leaves the function after [finally]. *)
Definition _onFail (ex : reason) (c : t) : t * completion unit :=
  if _disposed c then (c, Return ())
  else
    let c' := set_defer (settle (Rejected ex) (defer c)) c in
    match done c (DoneErr ex) with
    | Some ex' => (c', Throw (Thrown ex'))
    | None => (c', Return ())
    end.

(** [Create.prototype.dispose].  [this.save = noop] and
    [this._disposed = true] are assigned together and nothing else assigns
    either of them: the flag [_disposed] of the record also stands for the
    [noop] that has taken the place of [save] on the instance (see
    [save]).  [this.job = null] is the [None] of the second field. *)
Definition dispose (c : t) : t := mk (defer c) None (done c) true.

(** The value an exception carries when a promise is rejected with it. *)
Definition exn_value (e : exn) : jsval :=
  match e with
  | TypeError m | Error m => JError m
  | Thrown v => v
  end.

(** [Create.prototype.save], first half: [new JobModel(this.job)] and the
    call of [jobModel.create()].  Synchronous; an exception of the
    constructor, for a [this.job] that is no job item, escapes to the
    caller.  This is the method of the prototype: an instance that has
    been disposed no longer reaches it through [instance.save] (see
    [save]). *)
Definition save_create (E : JobModel.env) (NS : string) (c : t)
    : completion JobModel.chain_state :=
  let arg := match job c with
             | Some j => JobModel.ArgJobItem j
             | None => JobModel.ArgValue JNull
             end in
  match JobModel.JobModel arg, job c with
  | Return _, Some j => Return (JobModel.create E NS j)
  | Return _, None => Throw (TypeError "Cannot set property 'id' of null")
  | Throw e, _ => Throw e
  end.

(** [instance.save()]: the method that the call finds on the instance.
    After [dispose] it is [noop], which makes no call and returns
    [undefined], here [None]; before, it is [Create.prototype.save]. *)
Definition save (E : JobModel.env) (NS : string) (c : t)
    : option (completion JobModel.chain_state) :=
  if _disposed c then None else Some (save_create E NS c).

(** [Create.prototype.save], second half: the promise of
    [jobModel.create()] has settled and [then] runs [_onSuccess] or
    [_onFail].  The job item is the object that [create] worked on, unless
    [dispose] has dropped the reference meanwhile.  The second component
    is the promise that [then] returns, which follows the handler: it is
    rejected when the handler throws.  Nothing holds on to it. *)
Definition save_settled (s : JobModel.chain_state) (c : t)
    : t * deferred unit :=
  let job := match job c with
             | Some _ => Some (JobModel.cs_job s)
             | None => None
             end in
  let c := mk (defer c) job (done c) (_disposed c) in
  match JobModel.cs_def s with
  | Pending => (c, Pending)
  | Settled p =>
      let (c', r) := match p with
                     | Resolved _ => _onSuccess c
                     | Rejected ex => _onFail ex c
                     end in
      (c', Settled (match r with
                    | Return _ => Resolved ()
                    | Throw e => Rejected (Raised (exn_value e))
                    end))
  end.

End Create.

(** ** lib/ctrl/worker.ctrl.js *)

Module Worker.

(** [Worker.param] *)
Definition BUFFER_GRACE : Z := 5.
Definition THROTTLE_LIMIT : Z := 5000.
Definition THROTTLE_TIMEOUT : Z := 5000.

(** The instance.  [_processing] is the map of the process items in
    flight, keyed by [job.id]; [_throttleCall] the buffer of master-loop
    invocations, oldest first. *)
Record t : Type := mk {
  jobNames : list string;
  concurrentJobs : Z;
  _throttleOn : bool;
  _throttleCall : list Z;
  _throttleTimeout : option nat;
  _disposed : bool;
  loopCount : Z;
  throttleBufferLen : Z;
  _processing : gmap (option string) ProcessItem.t
}.

Definition set_throttleCall (c : list Z) (w : t) : t :=
  mk (jobNames w) (concurrentJobs w) (_throttleOn w) c (_throttleTimeout w)
     (_disposed w) (loopCount w) (throttleBufferLen w) (_processing w).

Definition set_throttleOn (b : bool) (w : t) : t :=
  mk (jobNames w) (concurrentJobs w) b (_throttleCall w) (_throttleTimeout w)
     (_disposed w) (loopCount w) (throttleBufferLen w) (_processing w).

Definition set_throttleTimeout (h : option nat) (w : t) : t :=
  mk (jobNames w) (concurrentJobs w) (_throttleOn w) (_throttleCall w) h
     (_disposed w) (loopCount w) (throttleBufferLen w) (_processing w).

Definition set_loopCount (n : Z) (w : t) : t :=
  mk (jobNames w) (concurrentJobs w) (_throttleOn w) (_throttleCall w)
     (_throttleTimeout w) (_disposed w) n (throttleBufferLen w)
     (_processing w).

Definition set_processing (m : gmap (option string) ProcessItem.t) (w : t)
    : t :=
  mk (jobNames w) (concurrentJobs w) (_throttleOn w) (_throttleCall w)
     (_throttleTimeout w) (_disposed w) (loopCount w) (throttleBufferLen w) m.

(** The constructor, for arguments that [_parseArguments] accepts: the
    job names and the number [options.concurrentJobs], if one was given;
    the last assignment is the one of [_configure]. *)
Definition Worker (names : list string) (optConcurrentJobs : option Z) : t :=
  let concurrentJobs := default 1 optConcurrentJobs in
  mk names concurrentJobs false [] None false 0
     (concurrentJobs + BUFFER_GRACE) ∅.

(** What one synchronous turn reads from its environment: the successive
    readings of [Date.now()], and the handle that [setTimeout] returns. *)
Record io : Type := mk_io {
  date_now : nat -> Z;
  timer : nat
}.

(** The same environment, seen after one reading of the clock. *)
Definition later (e : io) : io :=
  mk_io (fun k => date_now e (S k)) (timer e).

(** Callbacks handed to [setTimeout]. *)
Inductive timer_cb : Type :=
  | WorkTimeout (job : JobItem.t) (processItem : ProcessItem.t)
  | ThrottleResume.

(** Calls that leave the worker, in program order.  [Processed] is the
    call [new JobModel(job).processed(success, optTimeout)]; once its
    promise has settled, the master loop is entered with [null]. *)
Inductive effect : Type :=
  | PopFetch (names : list string)
  | SetTimeout (cb : timer_cb) (delay : Z) (handle : nat)
  | ClearTimeout (handle : option nat)
  | CallConsumer (publicJob : JobItem.t) (data : jsval)
  | Processed (job : JobItem.t) (success optTimeout : bool)
  | PopDispose
  | LogWarn.

(** [Worker.prototype._throttleLoop].  A buffer emptied by [splice] makes
    [this._throttleCall[0]] undefined and the comparison false. *)
Definition _throttleLoop (e : io) (w : t) : bool * (t * list effect) :=
  if _throttleOn w || _disposed w then (true, (w, []))
  else
    let calls := _throttleCall w ++ [date_now e 0] in
    let callLen := Z.of_nat (length calls) in
    (* enforce buffer behavior *)
    let calls :=
      if callLen >? throttleBufferLen w
      then drop (Z.to_nat (callLen - throttleBufferLen w)) calls
      else calls in
    let w := set_throttleCall calls w in
    (* check if throttle limit reached *)
    if match head calls with
       | Some oldest => date_now e 1 - oldest >? THROTTLE_LIMIT
       | None => false
       end
    then (false, (w, []))
    else
      (* trigger throttle *)
      (true,
       (set_throttleTimeout (Some (timer e)) (set_throttleOn true w),
        [SetTimeout ThrottleResume THROTTLE_TIMEOUT (timer e)])).

(** [Worker.prototype._masterLoop] *)
Definition _masterLoop (e : io) (optErr : jsval) (w : t) : t * list effect :=
  if _disposed w then (w, [])
  else
    (* don't burn *)
    let '(stop, (w, eff)) :=
      if truthy optErr then _throttleLoop e w else (false, (w, [])) in
    if stop then (w, eff ++ [LogWarn])
    else
      let w := set_loopCount (loopCount w + 1) w in
      let processingCount := Z.of_nat (size (_processing w)) in
      (w, eff ++ replicate (Z.to_nat (concurrentJobs w - processingCount))
                           (PopFetch (jobNames w))).

(** The callback of the throttle's timer. *)
Definition throttle_resume (e : io) (w : t) : t * list effect :=
  _masterLoop e JUndefined (set_throttleCall [] (set_throttleOn false w)).

(** "determine success" in [_workFinish]. *)
Definition determine_success (optErr : jsval) : bool :=
  let success := negb (isString_and_length optErr) in
  if isBoolean optErr && negb (truthy optErr) then false else success.

(** What an entry point leaves behind: the worker, the job item it was
    called with, the process item it took out of the map, if any, and the
    calls it made. *)
Record result : Type := mk_result {
  worker : t;
  job_after : JobItem.t;
  item : option ProcessItem.t;
  effects : list effect
}.

(** [Worker.prototype._workFinish].  The optional third argument is only
    called once the promise of [processed] has settled. *)
Definition _workFinish (e : io) (job : JobItem.t) (optErr : jsval) (w : t)
    : result :=
  if _disposed w then mk_result w job None []
  else
    (* get process item *)
    match _processing w !! JobItem.id job with
    | None =>
        (* The job could have timed out or already be complete *)
        let (w, eff) := _masterLoop e JUndefined w in
        mk_result w job None eff
    | Some processItem =>
        (* unregister work *)
        let w := set_processing (delete (JobItem.id job) (_processing w)) w in
        (* determine success *)
        let success := determine_success optErr in
        (* save process time *)
        let processItem' :=
          ProcessItem.set_processTime
            (Some (date_now e 0 - ProcessItem.startTime processItem))
            processItem in
        (* update process state and job item *)
        let '(processItem', job) :=
          if success
          then (ProcessItem.set_state States.P_SUCCESS processItem', job)
          else (ProcessItem.set_errorMessage optErr
                  (ProcessItem.set_state States.P_FAIL processItem'),
                JobItem.set_lastError optErr job) in
        (* update the job with the process item *)
        let job := JobItem.addProcessItem processItem' job in
        mk_result w job (Some processItem')
          [ClearTimeout (ProcessItem.timeout processItem);
           Processed job success false]
    end.

(** [Worker.prototype._workTimeout] *)
Definition _workTimeout (e : io) (job : JobItem.t) (w : t) : result :=
  if _disposed w then mk_result w job None []
  else
    match _processing w !! JobItem.id job with
    | None =>
        let (w, eff) := _masterLoop e JUndefined w in
        mk_result w job None eff
    | Some processItem =>
        (* unregister work *)
        let w := set_processing (delete (JobItem.id job) (_processing w)) w in
        let processItem :=
          ProcessItem.set_processTime
            (Some (date_now e 0 - ProcessItem.startTime processItem))
            processItem in
        let processItem :=
          ProcessItem.set_errorMessage (JString "processing timed out")
            (ProcessItem.set_state States.P_GHOST processItem) in
        let job := JobItem.set_lastError (JString "processing timed out") job in
        mk_result w job (Some processItem) [Processed job false true]
    end.

(** What the consumer does before it returns to [_workStart]: it returns
    (having called [done] or not, with a promise or without), or it
    throws. *)
Inductive consumer : Type :=
  | Returns
  | Throws (ex : jsval).

(** [Worker.prototype._workStart]; the exception of the consumer is
    reported to [_workFinish] and thrown again. *)
Definition _workStart (e : io) (c : consumer) (job : JobItem.t) (w : t)
    : result * completion unit :=
  if _disposed w then (mk_result w job None [], Return ())
  else
    let processItem :=
      ProcessItem.set_timeout (Some (timer e))
        (JobItem.ProcessItem job (date_now e 0)) in
    (* register work *)
    let w :=
      set_processing (<[JobItem.id job := processItem]> (_processing w)) w in
    let eff :=
      [SetTimeout (WorkTimeout job processItem) (JobItem.processTimeout job)
         (timer e);
       CallConsumer (JobItem.getPublic job) (JobItem.data job)] in
    match c with
    | Returns => (mk_result w job None eff, Return ())
    | Throws ex =>
        let r := _workFinish (later e) job ex w in
        (mk_result (worker r) (job_after r) (item r) (eff ++ effects r),
         Throw (Thrown ex))
    end.

(** [Worker.prototype.dispose] *)
Definition dispose (w : t) : t * list effect :=
  (mk (jobNames w) (concurrentJobs w) (_throttleOn w) (_throttleCall w)
      (_throttleTimeout w) true (loopCount w) (throttleBufferLen w) ∅,
   (if _throttleOn w then [ClearTimeout (_throttleTimeout w)] else [])
   ++ [PopDispose]).

End Worker.

(** ** The life of one job on one worker *)

Module Lifecycle.

(** What one attempt consists of: the environment of the turn in which
    the job is dispatched, the one of the turn in which the consumer
    reports [optErr] through the completion callback, and the reading of
    the clock in the outcome processor. *)
Record attempt_input : Type := mk_attempt {
  at_start : Worker.io;
  at_finish : Worker.io;
  at_processed : Z;
  optErr : jsval
}.

(** The call of [processed] among the calls an entry point made. *)
Fixpoint outcome_call (effs : list Worker.effect)
    : option (JobItem.t * bool * bool) :=
  match effs with
  | [] => None
  | Worker.Processed job success optTimeout :: _ =>
      Some (job, success, optTimeout)
  | _ :: effs => outcome_call effs
  end.

Definition is_terminal (state : option States.Job) : bool :=
  match state with
  | Some s => States.terminal s
  | None => false
  end.

(** One attempt: [_workStart], the consumer's call of the completion
    callback, [processed], and the master loop entered with [null] once
    the promise of [processed] has settled.  [None] when the attempt
    drives no outcome. *)
Definition attempt (E : JobModel.env) (i : attempt_input)
    (job : JobItem.t) (w : Worker.t)
    : option (Worker.t * JobModel.chain_state) :=
  let r := fst (Worker._workStart (at_start i) Worker.Returns job w) in
  let r := Worker._workFinish (at_finish i) (Worker.job_after r) (optErr i)
             (Worker.worker r) in
  match outcome_call (Worker.effects r) with
  | None => None
  | Some (job, success, optTimeout) =>
      Some (fst (Worker._masterLoop (Worker.later (at_finish i)) JNull
                   (Worker.worker r)),
            JobModel.processed E (at_processed i) success optTimeout job)
  end.

(** Modelled from the spec: the queue model and the pop model are
    missing.  Section 4.3: a job in a terminal state is not enqueued, one
    in state RETRY or GHOST is; section 4.4: pop hands the stored record
    to the worker in state PROCESSING. *)
Definition popped (job : JobItem.t) : JobItem.t :=
  JobItem.set_state (Some States.PROCESSING) job.

(** The attempts a job goes through while the consumer answers with the
    given reports, one per attempt: the record after the last attempt
    made, and the number of attempts made. *)
Fixpoint consume (E : JobModel.env) (inputs : list attempt_input)
    (job : JobItem.t) (w : Worker.t) : JobItem.t * nat :=
  match inputs with
  | [] => (job, 0%nat)
  | i :: inputs =>
      match attempt E i job w with
      | None => (job, 0%nat)
      | Some (w, s) =>
          let job := JobModel.cs_job s in
          if is_terminal (JobItem.state job) then (job, 1%nat)
          else
            let (job, n) := consume E inputs (popped job) w in
            (job, S n)
      end
  end.

(** One attempt that the consumer never answers: [_workStart], the timer
    of the job, which calls [_workTimeout] in the turn [at_finish],
    [processed], and the master loop entered with [null] once the promise
    of [processed] has settled.  The report [optErr] of the input is not
    read. *)
Definition timed_out_attempt (E : JobModel.env) (i : attempt_input)
    (job : JobItem.t) (w : Worker.t)
    : option (Worker.t * JobModel.chain_state) :=
  let r := fst (Worker._workStart (at_start i) Worker.Returns job w) in
  let r := Worker._workTimeout (at_finish i) (Worker.job_after r)
             (Worker.worker r) in
  match outcome_call (Worker.effects r) with
  | None => None
  | Some (job, success, optTimeout) =>
      Some (fst (Worker._masterLoop (Worker.later (at_finish i)) JNull
                   (Worker.worker r)),
            JobModel.processed E (at_processed i) success optTimeout job)
  end.

(** The attempts a job goes through while the consumer never answers:
    the records that [processed] leaves, one per attempt made.  A job
    that is not in a terminal state is delivered again, as in
    [consume]. *)
Fixpoint time_out (E : JobModel.env) (inputs : list attempt_input)
    (job : JobItem.t) (w : Worker.t) : list JobItem.t :=
  match inputs with
  | [] => []
  | i :: inputs =>
      match timed_out_attempt E i job w with
      | None => []
      | Some (w, s) =>
          let job := JobModel.cs_job s in
          job :: (if is_terminal (JobItem.state job) then []
                  else time_out E inputs (popped job) w)
      end
  end.

(** What re-enters a worker: a job that a pop delivered, the completion
    callback of a job (called by the consumer, or by the promise it
    returned), the timer of a job, the master loop (with the error of a
    pop that failed, or with [null] after [processed]), the timer of the
    throttle, and [dispose]. *)
Inductive event : Type :=
  | Dispatch (c : Worker.consumer) (job : JobItem.t)
  | Done (job : JobItem.t) (optErr : jsval)
  | TimerFired (job : JobItem.t)
  | Loop (optErr : jsval)
  | ThrottleTimer
  | Dispose.

Definition step (e : Worker.io) (ev : event) (w : Worker.t)
    : Worker.t * list Worker.effect :=
  match ev with
  | Dispatch c job =>
      let r := fst (Worker._workStart e c job w) in
      (Worker.worker r, Worker.effects r)
  | Done job optErr =>
      let r := Worker._workFinish e job optErr w in
      (Worker.worker r, Worker.effects r)
  | TimerFired job =>
      let r := Worker._workTimeout e job w in
      (Worker.worker r, Worker.effects r)
  | Loop optErr => Worker._masterLoop e optErr w
  | ThrottleTimer => Worker.throttle_resume e w
  | Dispose => Worker.dispose w
  end.

(** The turns of a worker, one after the other. *)
Fixpoint run (evs : list (Worker.io * event)) (w : Worker.t)
    : Worker.t * list Worker.effect :=
  match evs with
  | [] => (w, [])
  | (e, ev) :: evs =>
      let (w, eff) := step e ev w in
      let (w', eff') := run evs w in
      (w', eff ++ eff')
  end.

(** The calls of [processed] among the calls made, and those for the job
    of a given id. *)
Definition is_outcome (eff : Worker.effect) : bool :=
  match eff with
  | Worker.Processed _ _ _ => true
  | _ => false
  end.

Definition is_outcome_of (i : option string) (eff : Worker.effect) : bool :=
  match eff with
  | Worker.Processed job _ _ => bool_decide (JobItem.id job = i)
  | _ => false
  end.

Definition is_dispatch_of (i : option string) (ev : event) : bool :=
  match ev with
  | Dispatch _ job => bool_decide (JobItem.id job = i)
  | _ => false
  end.

Definition is_dispatch (ev : event) : bool :=
  match ev with
  | Dispatch _ _ => true
  | _ => false
  end.

End Lifecycle.

(** ** Arguments of the constructors

    The constructors of [Create] and [Worker] sort out their arguments by
    what they are: functions, objects, arrays, strings.  [F] is what a
    function value stands for. *)

Module Args.

Inductive arg (F : Type) : Type :=
  | Val (v : jsval)
  | Arr (names : list string)
  | Opts (concurrentJobs : jsval)
  | Fun (f : F).

Arguments Val {F} v.
Arguments Arr {F} names.
Arguments Opts {F} concurrentJobs.
Arguments Fun {F} f.

(** [_.isFunction] *)
Definition isFunction {F : Type} (a : arg F) : bool :=
  match a with Fun _ => true | _ => false end.

(** [_.isObject]: objects, arrays and functions; no primitive, not null. *)
Definition isObject {F : Type} (a : arg F) : bool :=
  match a with
  | Val (JObject _) | Val (JError _) | Arr _ | Opts _ | Fun _ => true
  | Val _ => false
  end.

(** [_.isArray] *)
Definition isArray {F : Type} (a : arg F) : bool :=
  match a with Arr _ => true | _ => false end.

(** [typeof a === 'undefined'] *)
Definition isUndefined {F : Type} (a : arg F) : bool :=
  match a with Val JUndefined => true | _ => false end.

(** The value of the property [concurrentJobs] of an options object:
    [Opts c] is an object that has it, with value [c]. *)
Definition get_concurrentJobs {F : Type} (options : option (arg F)) : jsval :=
  match options with
  | Some (Opts c) => c
  | _ => JUndefined
  end.

End Args.

(** ** lib/ctrl/create.js: the constructor *)

Module CreateCtor.

(** The user's callback, as [Create.t] holds it. *)
Definition callback : Type := Create.done_args -> option jsval.

(** The data that is assigned to [job.data]: any value that is no
    function. *)
Inductive data_arg : Type :=
  | Data (v : jsval)
  | DataFun (f : callback).

Definition set_name (n : string) (j : JobItem.t) : JobItem.t :=
  JobItem.mk (JobItem.id j) n (JobItem.data j) (JobItem.state j)
    (JobItem.createTime j) (JobItem.retry j) (JobItem.retryTimes j)
    (JobItem.ghostRetry j) (JobItem.ghostTimes j) (JobItem.processTimeout j)
    (JobItem.runs j) (JobItem.complete j) (JobItem.success j)
    (JobItem.finishTime j) (JobItem.totalProcessTime j) (JobItem.lastError j).

Definition set_data (d : jsval) (j : JobItem.t) : JobItem.t :=
  JobItem.mk (JobItem.id j) (JobItem.name j) d (JobItem.state j)
    (JobItem.createTime j) (JobItem.retry j) (JobItem.retryTimes j)
    (JobItem.ghostRetry j) (JobItem.ghostTimes j) (JobItem.processTimeout j)
    (JobItem.runs j) (JobItem.complete j) (JobItem.success j)
    (JobItem.finishTime j) (JobItem.totalProcessTime j) (JobItem.lastError j).

Section Ctor.

(** [new JobItem()] and [JobItem.prototype.initialize] of
    [../model/job.item]: the blank job item, and what [initialize] makes
    of a job item given the options ([None] for the empty object). *)
Variable blank : JobItem.t.
Variable initialize : option (Args.arg callback) -> JobItem.t -> JobItem.t.

(** [var Create = module.exports = function(jobName, optData, optOpts,
    optCb)] *)
Definition Create (jobName : string) (optData : data_arg)
    (optOpts optCb : Args.arg callback) : Create.t :=
  let job := set_name jobName blank in
  let opts := None in
  let done := Create.noop in
  (* optData should be a function (the callback)
     or any other value (used as actual data) *)
  let job :=
    match optData with
    | Data v => if bool_decide (v = JUndefined) then job else set_data v job
    | DataFun _ => job
    end in
  let opts :=
    if negb (Args.isFunction optOpts) && Args.isObject optOpts
    then Some optOpts else opts in
  let done := match optCb with Args.Fun f => f | _ => done end in
  let done := match optOpts with Args.Fun f => f | _ => done end in
  let done := match optData with DataFun f => f | Data _ => done end in
  (* process all options *)
  Create.mk Pending (Some (initialize opts job)) done false.

End Ctor.

End CreateCtor.

(** ** lib/ctrl/worker.ctrl.js: the constructor *)

Module WorkerCtor.

(** What [_parseArguments] keeps of the arguments.  [consumerWorkerFn] is
    null until a function is found, [options] is [None] for the empty
    object that the constructor starts with. *)
Record parsed (F : Type) : Type := mk_parsed {
  consumerWorkerFn : option F;
  selfObj : option (Args.arg F);
  options : option (Args.arg F);
  jobNames : list string
}.

Arguments mk_parsed {F} _ _ _ _.
Arguments consumerWorkerFn {F} _.
Arguments selfObj {F} _.
Arguments options {F} _.
Arguments jobNames {F} _.

(** [Worker.prototype._parseArguments], up to the two checks. *)
Definition parse {F : Type} (jobName optOpts optCb optSelf : Args.arg F)
    : parsed F :=
  (* check for callback *)
  let fn := None in
  let fn := match optCb with Args.Fun f => Some f | _ => fn end in
  let fn := match optOpts with Args.Fun f => Some f | _ => fn end in
  (* check for context *)
  let self := None in
  let self := if Args.isObject optSelf then Some optSelf else self in
  let self := if Args.isObject optCb then Some optCb else self in
  (* check for options *)
  let opts := if Args.isObject optOpts then Some optOpts else None in
  (* check for job names *)
  let names := match jobName with Args.Arr l => l | _ => [] end in
  let names :=
    match jobName with Args.Val (JString s) => names ++ [s] | _ => names end in
  mk_parsed fn self opts names.

(** [Worker.prototype._parseArguments] *)
Definition _parseArguments {F : Type}
    (jobName optOpts optCb optSelf : Args.arg F) : completion (parsed F) :=
  let p := parse jobName optOpts optCb optSelf in
  match consumerWorkerFn p with
  | None => Throw (TypeError "No worker callback provided")
  | Some _ =>
      if Nat.eqb (length (jobNames p)) 0
      then Throw (Error "No valid jobs found for processing")
      else Return p
  end.

(** The test of [_configure]: [_.isNumber(this.options.concurrentJobs)]. *)
Definition optConcurrentJobs {F : Type} (p : parsed F) : option Z :=
  match Args.get_concurrentJobs (options p) with
  | JNumber n => Some n
  | _ => None
  end.

(** [var Worker = module.exports = function(jobName, optOpts, optCb,
    optSelf)]: the instance, and what it keeps of the arguments. *)
Definition Worker {F : Type} (jobName optOpts optCb optSelf : Args.arg F)
    : completion (Worker.t * parsed F) :=
  match _parseArguments jobName optOpts optCb optSelf with
  | Throw e => Throw e
  | Return p => Return (Worker.Worker (jobNames p) (optConcurrentJobs p), p)
  end.

(** [Worker.prototype.work] *)
Definition work (e : Worker.io) (w : Worker.t) : Worker.t * list Worker.effect :=
  Worker._masterLoop e JUndefined w.

End WorkerCtor.

(** * Notions of the specification *)

(** The sum of the durations of the attempts; a duration that is still
    null counts for 0. *)
Fixpoint sum_processTime (runs : list ProcessItem.t) : Z :=
  match runs with
  | [] => 0
  | p :: runs => default 0 (ProcessItem.processTime p) + sum_processTime runs
  end.

(** The number of process items in state GHOST. *)
Definition ghost_count (runs : list ProcessItem.t) : Z :=
  Z.of_nat (length (filter (fun p => ProcessItem.state p = States.P_GHOST) runs)).

(** The process item that an attempt appends to [runs]. *)
Definition finished_item (i : Lifecycle.attempt_input) (job : JobItem.t)
    : ProcessItem.t :=
  let p := ProcessItem.set_timeout (Some (Worker.timer (Lifecycle.at_start i)))
             (JobItem.ProcessItem job
                (Worker.date_now (Lifecycle.at_start i) 0)) in
  let p := ProcessItem.set_processTime
             (Some (Worker.date_now (Lifecycle.at_finish i) 0
                    - ProcessItem.startTime p)) p in
  if Worker.determine_success (Lifecycle.optErr i)
  then ProcessItem.set_state States.P_SUCCESS p
  else ProcessItem.set_errorMessage (Lifecycle.optErr i)
         (ProcessItem.set_state States.P_FAIL p).

(** The job item that an attempt hands to [processed]. *)
Definition finished_job (i : Lifecycle.attempt_input) (job : JobItem.t)
    : JobItem.t :=
  JobItem.addProcessItem (finished_item i job)
    (if Worker.determine_success (Lifecycle.optErr i) then job
     else JobItem.set_lastError (Lifecycle.optErr i) job).

(** The place of a call in outcome persistence: the update of the state
    index, then the save of the record, then the queue. *)
Definition persistence_rank (c : JobModel.call) : nat :=
  match c with
  | JobModel.SetState _ _ => 0
  | JobModel.Save _ => 1
  | JobModel.QueueSave _ => 2
  | _ => 3
  end.

(** A sequence of calls in which each call comes strictly before those
    of a higher rank: no call is repeated and no two are out of order. *)
Definition in_persistence_order (calls : list JobModel.call) : Prop :=
  forall (i j : nat) (c c' : JobModel.call),
    (i < j)%nat -> calls !! i = Some c -> calls !! j = Some c' ->
    (persistence_rank c < persistence_rank c')%nat.

(** The record that a call on the job item or on the queue model
    carries. *)
Definition call_record (c : JobModel.call) : option JobItem.t :=
  match c with
  | JobModel.SetState j _ | JobModel.Save j | JobModel.CreateState j
  | JobModel.CreateTimeIndex j | JobModel.QueueSave j => Some j
  | JobModel.Redis _ => None
  end.

(** How many times the outcome processor was called, and how many jobs
    were dispatched. *)
Definition outcome_count (effs : list Worker.effect) : nat :=
  length (filter (fun eff => Lifecycle.is_outcome eff = true) effs).

Definition dispatch_count (evs : list (Worker.io * Lifecycle.event)) : nat :=
  length (filter (fun ev => Lifecycle.is_dispatch (snd ev) = true) evs).

(** The last [n] entries of a buffer. *)
Definition last_entries {A : Type} (n : nat) (l : list A) : list A :=
  drop (length l - n) l.

(** The calls of a create that meets no failure: the INCR, the four
    calls on the job item and the queue model, with the job carrying its
    new id, and the ZADD of the time index. *)
Definition create_sequence (E : JobModel.env) (NS : string) (job : JobItem.t)
    : list JobModel.call :=
  let j := JobItem.set_id (Some (pretty (JobModel.incr_id E))) job in
  [JobModel.Redis (JobModel.INCR (NS +:+ ":id"));
   JobModel.Save j; JobModel.CreateState j; JobModel.CreateTimeIndex j;
   JobModel.QueueSave j;
   JobModel.Redis (JobModel.ZADD (NS +:+ ":time-index")
                     (JobItem.createTime j) (JobItem.id j))].

(** The calls by which a worker lets go: clearing a timer and disposing
    of the pop model. *)
Definition is_teardown (eff : Worker.effect) : bool :=
  match eff with
  | Worker.ClearTimeout _ | Worker.PopDispose => true
  | _ => false
  end.

Definition is_pop (eff : Worker.effect) : bool :=
  match eff with
  | Worker.PopFetch _ => true
  | _ => false
  end.

(** The throttle is at rest (nothing recorded) or on. *)
Definition throttle_settled (w : Worker.t) : Prop :=
  Worker._throttleCall w = [] \/ Worker._throttleOn w = true.

(** The two readings of the clock that [_throttleLoop] makes in one turn
    are at most [THROTTLE_LIMIT] apart. *)
Definition prompt (e : Worker.io) : Prop :=
  Worker.date_now e 1 - Worker.date_now e 0 <= Worker.THROTTLE_LIMIT.

(** * Properties *)

(** ** Outcome classification *)

(** The classification, case by case. *)
Lemma determine_success_cases (optErr : jsval) :
  Worker.determine_success optErr =
  match optErr with
  | JString s => bool_decide (s = "")
  | JBool b => b
  | _ => true
  end.
Proof.
  destruct optErr as [| |b|n|s|m|d]; try reflexivity.
  - by destruct b.
  - by destruct s.
Qed.

(** C2.  An [Error] object handed to the completion callback, which is
    what [_workStart] does with an exception of the consumer, is a truthy
    error value that is not a boolean, and the attempt is classified as a
    success: the job is processed with [success = true] and its process
    item is in state SUCCESS. *)
Theorem thrown_error_is_classified_success :
  let ex := JError "boom" in
  let job := JobItem.mk (Some "1") "mail" (JString "hi") (Some States.PROCESSING)
               0 true 3 true 1 50 [] false false None None JNull in
  let w := Worker.Worker ["mail"] None in
  let e := Worker.mk_io (fun _ => 1000) 7%nat in
  let r := fst (Worker._workStart e (Worker.Throws ex) job w) in
  truthy ex = true /\ isBoolean ex = false /\
  Worker.determine_success ex = true /\
  Lifecycle.outcome_call (Worker.effects r)
    = Some (Worker.job_after r, true, false) /\
  (ProcessItem.state <$> Worker.item r) = Some States.P_SUCCESS /\
  JobItem.state
    (JobModel.cs_job
       (JobModel.processed
          (JobModel.mk_env (fun _ => None) (fun _ => JNull) 1 true)
          1000 true false (Worker.job_after r)))
    = Some States.SUCCESS.
Proof.
  vm_compute. repeat split; reflexivity.
Qed.

(** ** The outcome processor *)

Lemma foldl_processTime (runs : list ProcessItem.t) (acc : Z) :
  foldl (fun acc p => acc + default 0 (ProcessItem.processTime p)) acc runs
  = acc + sum_processTime runs.
Proof.
  revert acc. induction runs as [|p runs IH]; intros acc; simpl.
  - lia.
  - rewrite IH. lia.
Qed.

Lemma foldl_ghostCount (runs : list ProcessItem.t) (acc : Z) :
  foldl (fun ghostCount p =>
           if bool_decide (States.P_GHOST = ProcessItem.state p)
           then ghostCount + 1 else ghostCount) acc runs
  = acc + ghost_count runs.
Proof.
  unfold ghost_count.
  revert acc. induction runs as [|p runs IH]; intros acc; simpl.
  - lia.
  - rewrite IH, filter_cons.
    destruct (decide (ProcessItem.state p = States.P_GHOST)) as [Hp|Hp].
    + rewrite bool_decide_eq_true_2 by done. simpl length. lia.
    + rewrite bool_decide_eq_false_2 by congruence. lia.
Qed.

(** [_finishJob], field by field. *)
Lemma finishJob_fields (now : Z) (outcome : bool) (job : JobItem.t) :
  let job' := JobModel._finishJob now outcome job in
  JobItem.state job'
    = Some (if outcome then States.SUCCESS else States.FAIL) /\
  JobItem.complete job' = true /\
  JobItem.success job' = outcome /\
  JobItem.finishTime job' = Some now /\
  JobItem.totalProcessTime job'
    = Some (sum_processTime (JobItem.runs job)) /\
  JobItem.runs job' = JobItem.runs job.
Proof.
  unfold JobModel._finishJob; simpl.
  rewrite foldl_processTime. repeat split; reflexivity.
Qed.

(** The record that [processed] ends with is the one its branch computed:
    the state that was put back for [setState] is the new one again after
    [setState]. *)
Lemma processed_job (E : JobModel.env) (now : Z) (success optTimeout : bool)
    (job : JobItem.t) :
  JobModel.cs_job (JobModel.processed E now success optTimeout job)
  = JobModel.processed_branch now success optTimeout job.
Proof.
  unfold JobModel.processed.
  set (j := JobModel.processed_branch now success optTimeout job).
  unfold JobModel.bind, JobModel.job_setState, JobModel.then_,
    JobModel.job_call, JobModel._saveQueue, JobModel.job_call,
    JobModel.def_reject, JobModel.def_resolve, JobModel.to_settled; simpl.
  destruct (JobModel.collaborator E _) as [r1|]; simpl;
    [destruct (JobModel.reject_returns_promise E); simpl|];
    repeat (match goal with
            | |- context [JobModel.collaborator E ?c] =>
                destruct (JobModel.collaborator E c); simpl
            | |- context [JobModel.reject_returns_promise E] =>
                destruct (JobModel.reject_returns_promise E); simpl
            end);
    by destruct j.
Qed.

(** A state that is not terminal comes with the record unchanged but for
    its state; a terminal one comes from [_finishJob]. *)
Lemma processed_branch_cases (now : Z) (success optTimeout : bool)
    (job : JobItem.t) :
  let job' := JobModel.processed_branch now success optTimeout job in
  (exists outcome, job' = JobModel._finishJob now outcome job) \/
  job' = JobItem.set_state (Some States.RETRY) job \/
  job' = JobItem.set_state (Some States.GHOST) job.
Proof.
  unfold JobModel.processed_branch, JobModel._processedTimeout,
    JobModel._processedError.
  destruct success; [left; by eexists|].
  destruct optTimeout.
  - destruct (negb (JobItem.ghostRetry job)); [left; by eexists|].
    match goal with |- context [if ?c then _ else _] => destruct c end;
      [left; by eexists | right; by right].
  - destruct (negb (JobItem.retry job)); [left; by eexists|].
    match goal with |- context [if ?c then _ else _] => destruct c end;
      [right; by left | left; by eexists].
Qed.

(** X23.  The rule of [_processedTimeout], on the record that
    [processed] is given ([success = false], [optTimeout = true]): without
    ghost retry the job fails for good; with it, the job fails for good
    when the number of GHOST items in the [runs] it is given is greater
    than [ghostTimes], and becomes GHOST, with nothing else changed,
    when it is not.  The comparison is strict: [ghostTimes] ghosts in
    [runs] still give GHOST, [ghostTimes + 1] give FAIL. *)
Theorem processedTimeout_transitions (E : JobModel.env) (now : Z)
    (job : JobItem.t) :
  let job' := JobModel.cs_job (JobModel.processed E now false true job) in
  let ghosts := ghost_count (JobItem.runs job) in
  (JobItem.ghostRetry job = false ->
     JobItem.state job' = Some States.FAIL /\ JobItem.complete job' = true) /\
  (JobItem.ghostRetry job = true -> ghosts > JobItem.ghostTimes job ->
     JobItem.state job' = Some States.FAIL /\ JobItem.complete job' = true) /\
  (JobItem.ghostRetry job = true -> ghosts <= JobItem.ghostTimes job ->
     job' = JobItem.set_state (Some States.GHOST) job) /\
  (JobItem.ghostRetry job = true -> ghosts = JobItem.ghostTimes job ->
     JobItem.state job' = Some States.GHOST) /\
  (JobItem.ghostRetry job = true -> ghosts = JobItem.ghostTimes job + 1 ->
     JobItem.state job' = Some States.FAIL).
Proof.
  intros job' ghosts. subst job'. rewrite processed_job.
  unfold JobModel.processed_branch, JobModel._processedTimeout.
  rewrite foldl_ghostCount, Z.add_0_l. fold ghosts.
  assert (Hfail : forall j,
    j = JobModel._finishJob now false job ->
    JobItem.state j = Some States.FAIL /\ JobItem.complete j = true).
  { intros j ->. by destruct (finishJob_fields now false job) as (?&?&_). }
  refine (conj _ (conj _ (conj _ (conj _ _)))); simpl.
  - intros ->. by apply Hfail.
  - intros -> Hgt. simpl. destruct (Z.gtb_spec ghosts (JobItem.ghostTimes job));
      [by apply Hfail | lia].
  - intros -> Hle. simpl.
    destruct (Z.gtb_spec ghosts (JobItem.ghostTimes job)); [lia | done].
  - intros -> Heq. simpl.
    destruct (Z.gtb_spec ghosts (JobItem.ghostTimes job)); [lia | done].
  - intros -> Heq. simpl.
    destruct (Z.gtb_spec ghosts (JobItem.ghostTimes job));
      [by apply Hfail | lia].
Qed.

Lemma processedTimeout_transitions_witness :
  let E := JobModel.mk_env (fun _ => None) (fun _ => JNull) 1 true in
  let ghost := ProcessItem.mk 1 0 (Some 50) States.P_GHOST
                 (JString "processing timed out") None in
  let job ghostRetry runs :=
    JobItem.mk (Some "1") "mail" (JString "hi") (Some States.PROCESSING)
      0 true 3 ghostRetry 1 50 runs false false None None JNull in
  let state_after j :=
    JobItem.state (JobModel.cs_job (JobModel.processed E 100 false true j)) in
  state_after (job false []) = Some States.FAIL /\
  state_after (job true [ghost; ghost; ghost]) = Some States.FAIL /\
  state_after (job true [ghost; ghost]) = Some States.FAIL /\
  state_after (job true [ghost]) = Some States.GHOST /\
  state_after (job true []) = Some States.GHOST.
Proof.
  intros E ghost job state_after.
  refine (conj _ (conj _ (conj _ (conj _ _)))).
  - apply (proj1 (processedTimeout_transitions E 100 (job false []))).
    reflexivity.
  - apply (proj1 (proj2 (processedTimeout_transitions E 100
                           (job true [ghost; ghost; ghost]))));
      reflexivity.
  - apply (proj2 (proj2 (proj2 (proj2 (processedTimeout_transitions E 100
                                         (job true [ghost; ghost]))))));
      reflexivity.
  - apply (proj1 (proj2 (proj2 (proj2 (processedTimeout_transitions E 100
                                         (job true [ghost]))))));
      reflexivity.
  - unfold state_after.
    rewrite (proj1 (proj2 (proj2 (processedTimeout_transitions E 100
                                    (job true []))))
               eq_refl); [reflexivity | discriminate].
Defined.

(** C4, amended.  An attempt that succeeded: the job is in the terminal
    state SUCCESS, complete, with [finishTime] the reading of the clock
    and [totalProcessTime] the sum of [processTime] over [runs], which the
    processor leaves as they are.  And whatever the outcome, a job that
    the outcome processor leaves in SUCCESS or FAIL is complete and has a
    [finishTime]. *)
Theorem finished_job_is_complete (E : JobModel.env) (now : Z)
    (job : JobItem.t) :
  (forall optTimeout,
     let job' := JobModel.cs_job (JobModel.processed E now true optTimeout job) in
     JobItem.state job' = Some States.SUCCESS /\
     JobItem.complete job' = true /\
     JobItem.success job' = true /\
     JobItem.finishTime job' = Some now /\
     JobItem.runs job' = JobItem.runs job /\
     JobItem.totalProcessTime job'
       = Some (sum_processTime (JobItem.runs job'))) /\
  (forall success optTimeout,
     let job' :=
       JobModel.cs_job (JobModel.processed E now success optTimeout job) in
     JobItem.state job' = Some States.SUCCESS \/
     JobItem.state job' = Some States.FAIL ->
     JobItem.complete job' = true /\ JobItem.finishTime job' <> None).
Proof.
  split.
  - intros optTimeout job'. subst job'. rewrite processed_job.
    unfold JobModel.processed_branch.
    destruct (finishJob_fields now true job) as (Hs & Hc & Hsu & Hf & Ht & Hr).
    rewrite Hr. by repeat split.
  - intros success optTimeout job'. subst job'. rewrite processed_job.
    destruct (processed_branch_cases now success optTimeout job)
      as [[outcome ->] | [-> | ->]].
    + intros _.
      destruct (finishJob_fields now outcome job) as (_ & Hc & _ & Hf & _).
      split; [done | by rewrite Hf].
    + simpl. intros [?|?]; discriminate.
    + simpl. intros [?|?]; discriminate.
Qed.

Lemma finished_job_is_complete_witness :
  let E := JobModel.mk_env (fun _ => None) (fun _ => JNull) 1 true in
  let run := ProcessItem.mk 1 0 (Some 50) States.P_FAIL (JString "oops") None in
  let job :=
    JobItem.mk (Some "1") "mail" (JString "hi") (Some States.PROCESSING)
      0 false 3 true 1 50 [run] false false None None (JString "oops") in
  let job' := JobModel.cs_job (JobModel.processed E 100 false false job) in
  JobItem.state job' = Some States.FAIL /\
  JobItem.complete job' = true /\ JobItem.finishTime job' <> None.
Proof.
  intros E run job job'.
  split; [reflexivity|].
  apply (proj2 (finished_job_is_complete E 100 job) false false).
  right. reflexivity.
Defined.

(** C4 as stated fails: the invariant holds of the records that the
    outcome processor leaves, not of every record.  [_fetchResponse] puts
    the state of the hash field over the one of the stored item ("record
    state trumps itemData"): when the field says FAIL and the stored item
    is the one saved before the job finished, as it is between the
    [setState] and the [save] of [processed] and for good when that save
    fails, the fetch resolves with a job in state FAIL that is not
    complete and has no [finishTime]. *)
Lemma fetched_job_in_FAIL_not_complete :
  let stored := JobItem.mk (Some "7") "mail" (JString "hi")
                  (Some States.PROCESSING) 900 true 3 true 1 50 [] false false
                  None None JNull in
  let parse s :=
    if String.eqb s "{7}" then inr (JobModel.JsonObject stored)
    else inl "SyntaxError: Unexpected token" in
  let m := JobModel.mk None (Some "7") false in
  exists m' j,
    JobModel._fetchResponse parse m JNull (Some "{7}", Some States.FAIL)
      = Return (m', Resolved j) /\
    JobItem.state j = Some States.FAIL /\
    JobItem.complete j = false /\
    JobItem.finishTime j = None /\
    ~ (JobItem.complete j = true /\ JobItem.finishTime j <> None).
Proof.
  intros stored parse m. eexists _, _.
  split; [reflexivity|]. simpl.
  refine (conj eq_refl (conj eq_refl (conj eq_refl _))).
  intros [H _]. discriminate H.
Qed.

(** ** Retry exhaustion *)

Lemma throttleLoop_disposed (e : Worker.io) (w : Worker.t) :
  Worker._disposed (fst (snd (Worker._throttleLoop e w))) = Worker._disposed w.
Proof.
  unfold Worker._throttleLoop.
  destruct (Worker._throttleOn w || Worker._disposed w); [done|].
  match goal with |- context [if ?c then (false, _) else _] => destruct c end;
    reflexivity.
Qed.

Lemma masterLoop_disposed (e : Worker.io) (optErr : jsval) (w : Worker.t) :
  Worker._disposed (fst (Worker._masterLoop e optErr w)) = Worker._disposed w.
Proof.
  unfold Worker._masterLoop.
  destruct (Worker._disposed w) eqn:Hd; [exact Hd|].
  destruct (truthy optErr).
  - pose proof (throttleLoop_disposed e w) as H.
    destruct (Worker._throttleLoop e w) as [stop [w' eff]]; simpl in H.
    destruct stop; simpl; congruence.
  - simpl. exact Hd.
Qed.

(** On a worker that has not been disposed, an attempt ends with the call
    of [processed] on the job item with the finished process item
    appended, and leaves the worker undisposed. *)
Lemma attempt_spec (E : JobModel.env) (i : Lifecycle.attempt_input)
    (job : JobItem.t) (w : Worker.t) :
  Worker._disposed w = false ->
  exists w',
    Lifecycle.attempt E i job w
    = Some (w', JobModel.processed E (Lifecycle.at_processed i)
                  (Worker.determine_success (Lifecycle.optErr i)) false
                  (finished_job i job)) /\
    Worker._disposed w' = false.
Proof.
  intros Hd.
  unfold Lifecycle.attempt, Worker._workStart. rewrite Hd. simpl.
  unfold Worker._workFinish. simpl. rewrite Hd.
  rewrite lookup_insert_eq.
  unfold finished_job, finished_item.
  destruct (Worker.determine_success (Lifecycle.optErr i)); simpl;
    (eexists; split; [reflexivity|]);
    by rewrite masterLoop_disposed.
Qed.





(** ** The job model: constructor and fetch *)

(** C10.  [fetch] on a model that holds a job item, in particular one
    built from a job item, and [fetch] on a model whose job id is not a
    string throw an [Error]; [fetch] sends its command to Redis only when
    it does not throw.  The constructor throws a [TypeError] for an
    argument that is neither a string that is not empty nor a job item,
    and accepts the others. *)
Theorem fetch_and_constructor_throw (NS : string) :
  (forall m, JobModel.hasJobItem m = true ->
     JobModel.fetch NS m = Throw (Error "Instance already contains a job item")) /\
  (forall j m, JobModel.JobModel (JobModel.ArgJobItem j) = Return m ->
     JobModel.fetch NS m = Throw (Error "Instance already contains a job item")) /\
  (forall m, JobModel.hasJobItem m = false -> JobModel.jobId m = None ->
     JobModel.fetch NS m = Throw (Error "No job id has been defined")) /\
  (forall m, JobModel.jobId m = None ->
     exists message, JobModel.fetch NS m = Throw (Error message)) /\
  (forall m cmds, JobModel.fetch NS m = Return cmds ->
     JobModel.hasJobItem m = false /\
     exists i, JobModel.jobId m = Some i /\
       cmds = [JobModel.HMGET (NS +:+ ":job:" +:+ i) ["itemData"; "state"]]) /\
  (forall v, isString_and_length v = false ->
     JobModel.JobModel (JobModel.ArgValue v)
     = Throw (TypeError "Argument not string or Kickq.JobItem")) /\
  (forall v, isString_and_length v = true ->
     exists s, v = JString s /\
       JobModel.JobModel (JobModel.ArgValue v)
       = Return (JobModel.mk None (Some s) false)) /\
  (forall j, JobModel.JobModel (JobModel.ArgJobItem j)
             = Return (JobModel.mk (Some j) (JobItem.id j) true)).
Proof.
  refine (conj _ (conj _ (conj _ (conj _ (conj _ (conj _ (conj _ _))))))).
  - intros m Hm. unfold JobModel.fetch. by rewrite Hm.
  - intros j m [= <-]. reflexivity.
  - intros m Hm Hid. unfold JobModel.fetch. by rewrite Hm, Hid.
  - intros m Hid. unfold JobModel.fetch. rewrite Hid.
    destruct (JobModel.hasJobItem m); by eexists.
  - intros m cmds. unfold JobModel.fetch.
    destruct (JobModel.hasJobItem m); [discriminate|].
    destruct (JobModel.jobId m) as [i|]; [|discriminate].
    intros [= <-]. split; [done | by exists i].
  - intros v Hv. destruct v; try reflexivity.
    simpl in *. by rewrite Hv.
  - intros v Hv. destruct v; try discriminate.
    simpl in *. rewrite Hv. by eexists.
  - reflexivity.
Qed.

Lemma fetch_and_constructor_throw_witness :
  let job := JobItem.mk (Some "7") "mail" (JString "hi") (Some States.NEW)
               900 true 3 true 1 50 [] false false None None JNull in
  JobModel.fetch "kickq" (JobModel.mk (Some job) (Some "7") true)
    = Throw (Error "Instance already contains a job item") /\
  JobModel.fetch "kickq" (JobModel.mk (Some job) (JobItem.id job) true)
    = Throw (Error "Instance already contains a job item") /\
  JobModel.fetch "kickq" (JobModel.mk None None false)
    = Throw (Error "No job id has been defined") /\
  (exists message,
     JobModel.fetch "kickq" (JobModel.mk None None true)
     = Throw (Error message)) /\
  (exists i, JobModel.jobId (JobModel.mk None (Some "7") false) = Some i /\
     [JobModel.HMGET "kickq:job:7" ["itemData"; "state"]]
     = [JobModel.HMGET ("kickq" +:+ ":job:" +:+ i) ["itemData"; "state"]]) /\
  JobModel.JobModel (JobModel.ArgValue (JNumber 7))
    = Throw (TypeError "Argument not string or Kickq.JobItem") /\
  JobModel.JobModel (JobModel.ArgValue (JString ""))
    = Throw (TypeError "Argument not string or Kickq.JobItem") /\
  (exists s, JString "7" = JString s /\
     JobModel.JobModel (JobModel.ArgValue (JString "7"))
     = Return (JobModel.mk None (Some s) false)).
Proof.
  intros job.
  pose proof (fetch_and_constructor_throw "kickq")
    as (H1 & H2 & H3 & H4 & H5 & H6 & H7 & _).
  refine (conj _ (conj _ (conj _ (conj _ (conj _ (conj _ (conj _ _))))))).
  - apply H1. reflexivity.
  - apply (H2 job). reflexivity.
  - apply H3; reflexivity.
  - apply H4. reflexivity.
  - apply (H5 (JobModel.mk None (Some "7") false)). reflexivity.
  - apply H6. reflexivity.
  - apply H6. reflexivity.
  - apply H7. reflexivity.
Defined.

(** C5.  [fetch] asks Redis for the fields itemData and state of the
    job's hash.  The answer, when the command did not fail: without
    itemData the promise is rejected with NoRecord
    (NotFound); with itemData that [JSON.parse] rejects, with JSON
    (Corrupt); with itemData that parses to a record of another id, with
    NoRecord; and with itemData that parses to a record of the requested
    id it is resolved with that record, its state replaced by the state
    stored in the hash, whatever the record's own state was. *)
Theorem fetchResponse_outcomes (JSON_parse : string -> string + JobModel.json)
    (m : JobModel.t) (err : jsval) (itemData : string)
    (state : option States.Job) :
  truthy err = false ->
  JobModel._fetchResponse JSON_parse m err (None, state)
    = Return (m, Rejected (Typed (kError.NoRecord (JobModel.jobId m) None))) /\
  (forall ex, JSON_parse itemData = inl ex ->
     JobModel._fetchResponse JSON_parse m err (Some itemData, state)
     = Return (m, Rejected (Typed (kError.JSON ex)))) /\
  (forall o, JSON_parse itemData = inr (JobModel.JsonObject o) ->
     JobModel.jobId m <> JobItem.id o ->
     exists m' message,
       JobModel._fetchResponse JSON_parse m err (Some itemData, state)
       = Return (m', Rejected (Typed (kError.NoRecord (JobModel.jobId m)
                                        message))) /\
       JobModel.hasJobItem m' = JobModel.hasJobItem m) /\
  (forall o, JSON_parse itemData = inr (JobModel.JsonObject o) ->
     JobModel.jobId m = JobItem.id o ->
     let record := JobItem.set_state state o in
     JobModel._fetchResponse JSON_parse m err (Some itemData, state)
     = Return (JobModel.mk (Some record) (JobModel.jobId m) true,
               Resolved record) /\
     JobItem.state record = state /\
     JobItem.set_state (JobItem.state o) record = o) /\
  (forall NS i,
     JobModel.fetch NS (JobModel.mk None (Some i) false)
     = Return [JobModel.HMGET (NS +:+ ":job:" +:+ i) ["itemData"; "state"]]).
Proof.
  intros Herr. unfold JobModel._fetchResponse. rewrite Herr. simpl.
  refine (conj _ (conj _ (conj _ (conj _ _)))); [| | | |reflexivity].
  - reflexivity.
  - intros ex ->. reflexivity.
  - intros o -> Hne. unfold JobModel.new_JobItem. simpl.
    rewrite bool_decide_eq_false_2 by done. simpl. by eexists _, _.
  - intros o -> Heq. unfold JobModel.new_JobItem. simpl.
    rewrite bool_decide_eq_true_2 by done. simpl.
    repeat split. by destruct o.
Qed.

Lemma fetchResponse_outcomes_witness :
  let stored := JobItem.mk (Some "7") "mail" (JString "hi")
                  (Some States.PROCESSING) 900 true 3 true 1 50 [] false false
                  None None JNull in
  let parse s :=
    if String.eqb s "{7}" then inr (JobModel.JsonObject stored)
    else if String.eqb s "{8}"
    then inr (JobModel.JsonObject (JobItem.set_id (Some "8") stored))
    else inl "SyntaxError: Unexpected token" in
  let m := JobModel.mk None (Some "7") false in
  JobModel._fetchResponse parse m JNull (None, None)
    = Return (m, Rejected (Typed (kError.NoRecord (Some "7") None))) /\
  JobModel._fetchResponse parse m JNull (Some "{", Some States.RETRY)
    = Return (m, Rejected (Typed (kError.JSON "SyntaxError: Unexpected token"))) /\
  (exists m' message,
     JobModel._fetchResponse parse m JNull (Some "{8}", Some States.RETRY)
     = Return (m', Rejected (Typed (kError.NoRecord (Some "7") message))) /\
     JobModel.hasJobItem m' = false) /\
  JobModel._fetchResponse parse m JNull (Some "{7}", Some States.RETRY)
    = Return (JobModel.mk (Some (JobItem.set_state (Some States.RETRY) stored))
                (Some "7") true,
              Resolved (JobItem.set_state (Some States.RETRY) stored)).
Proof.
  intros stored parse m.
  refine (conj _ (conj _ (conj _ _))).
  - apply (proj1 (fetchResponse_outcomes parse m JNull "" None eq_refl)).
  - apply (proj1 (proj2 (fetchResponse_outcomes parse m JNull "{"
                           (Some States.RETRY) eq_refl))).
    reflexivity.
  - apply (proj1 (proj2 (proj2 (fetchResponse_outcomes parse m JNull "{8}"
                                  (Some States.RETRY) eq_refl)))
             (JobItem.set_id (Some "8") stored)).
    + reflexivity.
    + discriminate.
  - apply (proj1 (proj2 (proj2 (proj2 (fetchResponse_outcomes parse m JNull
                                         "{7}" (Some States.RETRY) eq_refl))))
             stored); reflexivity.
Defined.

(** ** The order of outcome persistence *)

Lemma set_state_restore (old : option States.Job) (j : JobItem.t) :
  JobItem.set_state (JobItem.state j) (JobItem.set_state old j) = j.
Proof. by destruct j. Qed.

(** The calls that [processed] makes, by what the collaborators answer.
    [c1] is the update of the state index, called on the record in its
    old state with the new state as argument; [c2] the save of the
    record; [c3] the call of the queue model. *)
Lemma processed_calls (E : JobModel.env) (now : Z) (success optTimeout : bool)
    (job : JobItem.t) :
  let job' := JobModel.processed_branch now success optTimeout job in
  let c1 := JobModel.SetState (JobItem.set_state (JobItem.state job) job')
              (JobItem.state job') in
  let c2 := JobModel.Save job' in
  let c3 := JobModel.QueueSave job' in
  JobModel.cs_calls (JobModel.processed E now success optTimeout job)
  = match JobModel.collaborator E c1, JobModel.collaborator E c2 with
    | None, None => [c1; c2; c3]
    | None, Some _ => [c1; c2]
    | Some _, _ =>
        if JobModel.reject_returns_promise E then [c1] else [c1; c3]
    end.
Proof.
  intros job' c1 c2 c3. subst c1 c2 c3.
  unfold JobModel.processed. fold job'.
  unfold JobModel.bind, JobModel.job_setState, JobModel._saveQueue,
    JobModel.job_call; simpl.
  rewrite !set_state_restore.
  destruct (JobModel.collaborator E (JobModel.SetState _ _)) as [r1|]; simpl.
  - unfold JobModel.def_reject; simpl.
    destruct (JobModel.reject_returns_promise E); simpl; [reflexivity|].
    by destruct (JobModel.collaborator E (JobModel.QueueSave job')).
  - destruct (JobModel.collaborator E (JobModel.Save job')) as [r2|]; simpl.
    + unfold JobModel.def_reject; simpl.
      by destruct (JobModel.reject_returns_promise E).
    + by destruct (JobModel.collaborator E (JobModel.QueueSave job')).
Qed.

Lemma processed_branch_runs (now : Z) (success optTimeout : bool)
    (job : JobItem.t) :
  JobItem.runs (JobModel.processed_branch now success optTimeout job)
  = JobItem.runs job.
Proof.
  destruct (processed_branch_cases now success optTimeout job)
    as [[outcome ->] | [-> | ->]]; reflexivity.
Qed.

(** X24.  The calls of [processed], for every job and every outcome, and
    whatever the storage answers: the update of the state index comes
    first and is always made, as the transition from the state the job
    had when [processed] was entered to the new state; the save of the
    record and the call of the queue model follow in this order, each at
    most once; all three are made when the first two succeed.  The record
    saved is the one the processor computed, with the runs it was given:
    for an attempt that the completion callback ended, the runs of the job
    and the process item of the attempt appended. *)
Theorem outcome_persistence_order (E : JobModel.env) (now : Z)
    (success optTimeout : bool) (job : JobItem.t) :
  let s := JobModel.processed E now success optTimeout job in
  let job' := JobModel.processed_branch now success optTimeout job in
  let c1 := JobModel.SetState (JobItem.set_state (JobItem.state job) job')
              (JobItem.state job') in
  let c2 := JobModel.Save job' in
  let c3 := JobModel.QueueSave job' in
  JobModel.cs_calls s `sublist_of` [c1; c2; c3] /\
  in_persistence_order (JobModel.cs_calls s) /\
  head (JobModel.cs_calls s) = Some c1 /\
  (JobModel.collaborator E c1 = None -> JobModel.collaborator E c2 = None ->
     JobModel.cs_calls s = [c1; c2; c3]) /\
  JobItem.runs job' = JobItem.runs job /\
  (forall (i : Lifecycle.attempt_input) (job0 : JobItem.t) (w : Worker.t),
     Worker._disposed w = false ->
     job = finished_job i job0 ->
     success = Worker.determine_success (Lifecycle.optErr i) ->
     optTimeout = false -> now = Lifecycle.at_processed i ->
     (exists w', Lifecycle.attempt E i job0 w = Some (w', s)) /\
     JobItem.runs job' = JobItem.runs job0 ++ [finished_item i job0]).
Proof.
  intros s job' c1 c2 c3.
  pose proof (processed_calls E now success optTimeout job) as Hcalls.
  cbv zeta in Hcalls. fold s job' in Hcalls.
  assert (Hcases : JobModel.cs_calls s = [c1; c2; c3] \/
                   JobModel.cs_calls s = [c1; c2] \/
                   JobModel.cs_calls s = [c1] \/
                   JobModel.cs_calls s = [c1; c3]).
  { rewrite Hcalls. unfold c1, c2, c3.
    destruct (JobModel.collaborator E (JobModel.SetState _ _));
      [destruct (JobModel.reject_returns_promise E)
      |destruct (JobModel.collaborator E (JobModel.Save _))];
      simpl; auto. }
  refine (conj _ (conj _ (conj _ (conj _ (conj _ _))))).
  - destruct Hcases as [-> | [-> | [-> | ->]]]; repeat constructor.
  - intros i j c c' Hij Hi Hj.
    destruct Hcases as [H | [H | [H | H]]]; rewrite H in Hi, Hj;
      destruct i as [|[|[|i]]], j as [|[|[|j]]];
      simpl in Hi, Hj; simplify_eq; simpl; lia.
  - by destruct Hcases as [-> | [-> | [-> | ->]]].
  - unfold c1, c2. intros H1 H2. by rewrite Hcalls, H1, H2.
  - apply processed_branch_runs.
  - intros i job0 w Hd -> -> -> ->. split.
    + destruct (attempt_spec E i job0 w Hd) as (w' & Hatt & _). by exists w'.
    + unfold job'. rewrite processed_branch_runs. unfold finished_job.
      by destruct (Worker.determine_success (Lifecycle.optErr i)).
Qed.

Lemma outcome_persistence_order_witness :
  let E := JobModel.mk_env (fun _ => None) (fun _ => JNull) 1 true in
  let i := Lifecycle.mk_attempt (Worker.mk_io (fun _ => 1000) 1%nat)
             (Worker.mk_io (fun _ => 1040) 2%nat) 1041 (JString "oops") in
  let job0 := JobItem.mk (Some "1") "mail" (JString "hi")
                (Some States.PROCESSING) 900 true 3 true 1 50 [] false false
                None None JNull in
  let w := Worker.Worker ["mail"] None in
  let job := finished_job i job0 in
  let job' := JobModel.processed_branch 1041 false false job in
  JobModel.cs_calls (JobModel.processed E 1041 false false job)
  = [JobModel.SetState (JobItem.set_state (Some States.PROCESSING) job')
       (Some States.RETRY);
     JobModel.Save job'; JobModel.QueueSave job'] /\
  (exists w', Lifecycle.attempt E i job0 w
              = Some (w', JobModel.processed E 1041 false false job)) /\
  JobItem.runs job' = [finished_item i job0].
Proof.
  intros E i job0 w job job'.
  pose proof (outcome_persistence_order E 1041 false false job)
    as (_ & _ & _ & Hall & _ & Hatt).
  split; [apply Hall; reflexivity|].
  apply (Hatt i job0 w); reflexivity.
Defined.

(** ** Late completion callbacks *)

Lemma throttleLoop_processing (e : Worker.io) (w : Worker.t) :
  Worker._processing (fst (snd (Worker._throttleLoop e w)))
  = Worker._processing w /\
  filter (fun eff => Lifecycle.is_outcome eff = true)
         (snd (snd (Worker._throttleLoop e w))) = [].
Proof.
  unfold Worker._throttleLoop.
  destruct (Worker._throttleOn w || Worker._disposed w); [done|].
  match goal with |- context [if ?c then (false, _) else _] => destruct c end;
    done.
Qed.

Lemma filter_outcome_replicate_pop (n : nat) (names : list string) :
  filter (fun eff => Lifecycle.is_outcome eff = true)
         (replicate n (Worker.PopFetch names)) = [].
Proof. induction n as [|n IH]; [done|]. simpl. by rewrite filter_cons_False. Qed.

(** The master loop leaves the map of the jobs in flight alone and calls
    no outcome processor. *)
Lemma masterLoop_processing (e : Worker.io) (optErr : jsval) (w : Worker.t) :
  Worker._processing (fst (Worker._masterLoop e optErr w))
  = Worker._processing w /\
  filter (fun eff => Lifecycle.is_outcome eff = true)
         (snd (Worker._masterLoop e optErr w)) = [].
Proof.
  unfold Worker._masterLoop.
  destruct (Worker._disposed w); [done|].
  destruct (truthy optErr).
  - destruct (throttleLoop_processing e w) as [Hp He].
    destruct (Worker._throttleLoop e w) as [stop [w' eff]]; simpl in *.
    destruct stop; simpl; rewrite filter_app, He; split; try done.
    by rewrite filter_outcome_replicate_pop.
  - simpl. split; [done|]. by rewrite filter_outcome_replicate_pop.
Qed.

Lemma no_outcome_none_of (i : option string) (effs : list Worker.effect) :
  filter (fun eff => Lifecycle.is_outcome eff = true) effs = [] ->
  Forall (fun eff => Lifecycle.is_outcome_of i eff = false) effs.
Proof.
  induction effs as [|eff effs IH]; [constructor|].
  rewrite filter_cons. destruct eff; simpl;
    try (intros H; constructor; [reflexivity | by apply IH]).
  discriminate.
Qed.

(** While no process item is registered under an id, a turn that is not
    the dispatch of a job of this id registers none and calls no outcome
    processor for a job of this id. *)
Lemma step_absent (i : option string) (e : Worker.io) (ev : Lifecycle.event)
    (w : Worker.t) :
  Lifecycle.is_dispatch_of i ev = false ->
  Worker._processing w !! i = None ->
  Worker._processing (fst (Lifecycle.step e ev w)) !! i = None /\
  Forall (fun eff => Lifecycle.is_outcome_of i eff = false)
         (snd (Lifecycle.step e ev w)).
Proof.
  intros Hev Hw.
  assert (Hloop : forall e' v,
    Worker._processing (fst (Worker._masterLoop e' v w)) !! i = None /\
    Forall (fun eff => Lifecycle.is_outcome_of i eff = false)
           (snd (Worker._masterLoop e' v w))).
  { intros e' v. destruct (masterLoop_processing e' v w) as [-> He].
    split; [done | by apply no_outcome_none_of]. }
  destruct ev as [c job|job optErr|job|optErr| |]; simpl in *.
  - (* a job of another id is dispatched *)
    apply bool_decide_eq_false in Hev.
    unfold Worker._workStart.
    destruct (Worker._disposed w) eqn:Hd; simpl; [by split|].
    destruct c as [|ex]; simpl.
    + rewrite lookup_insert_ne by done. split; [done|].
      by repeat constructor.
    + unfold Worker._workFinish. simpl. rewrite Hd, lookup_insert_eq.
      destruct (Worker.determine_success ex); simpl;
        (rewrite lookup_delete_ne by done);
        (rewrite lookup_insert_ne by done);
        (split; [done|]); repeat constructor; simpl;
        by apply bool_decide_eq_false.
  - (* the completion callback of a job *)
    unfold Worker._workFinish.
    destruct (Worker._disposed w); simpl; [by split|].
    destruct (Worker._processing w !! JobItem.id job) as [p|] eqn:Hp.
    + assert (JobItem.id job <> i) by congruence.
      destruct (Worker.determine_success optErr); simpl;
        (rewrite lookup_delete_ne by done);
        (split; [done|]); repeat constructor; simpl;
        by apply bool_decide_eq_false.
    + specialize (Hloop e JUndefined).
      by destruct (Worker._masterLoop e JUndefined w).
  - (* the timer of a job *)
    unfold Worker._workTimeout.
    destruct (Worker._disposed w); simpl; [by split|].
    destruct (Worker._processing w !! JobItem.id job) as [p|] eqn:Hp.
    + assert (JobItem.id job <> i) by congruence.
      simpl. rewrite lookup_delete_ne by done.
      split; [done|]. repeat constructor; simpl.
      by apply bool_decide_eq_false.
    + specialize (Hloop e JUndefined).
      by destruct (Worker._masterLoop e JUndefined w).
  - apply Hloop.
  - unfold Worker.throttle_resume.
    destruct (masterLoop_processing e JUndefined
                (Worker.set_throttleCall [] (Worker.set_throttleOn false w)))
      as [-> He].
    split; [done | by apply no_outcome_none_of].
  - split; [apply lookup_empty|].
    destruct (Worker._throttleOn w); by repeat constructor.
Qed.

Lemma run_absent (i : option string)
    (evs : list (Worker.io * Lifecycle.event)) :
  forall w : Worker.t,
  Forall (fun ev => Lifecycle.is_dispatch_of i (snd ev) = false) evs ->
  Worker._processing w !! i = None ->
  Worker._processing (fst (Lifecycle.run evs w)) !! i = None /\
  Forall (fun eff => Lifecycle.is_outcome_of i eff = false)
         (snd (Lifecycle.run evs w)).
Proof.
  induction evs as [|[e ev] evs IH]; intros w Hevs Hw; simpl.
  - by split.
  - apply Forall_cons in Hevs as [Hev Hevs]. simpl in Hev.
    destruct (step_absent i e ev w Hev Hw) as [Hw1 He1].
    destruct (Lifecycle.step e ev w) as [w1 eff1]; simpl in *.
    destruct (IH w1 Hevs Hw1) as [Hw2 He2].
    destruct (Lifecycle.run evs w1) as [w2 eff2]; simpl in *.
    split; [done | by apply Forall_app].
Qed.

(** A turn calls the outcome processor at most once, and only for a
    process item that it takes out of the map: the calls made and the
    items left are covered by the items that were there and the job
    dispatched in this turn, if any. *)
Lemma step_count (e : Worker.io) (ev : Lifecycle.event) (w : Worker.t) :
  (outcome_count (snd (Lifecycle.step e ev w))
   + size (Worker._processing (fst (Lifecycle.step e ev w)))
   <= size (Worker._processing w)
      + (if Lifecycle.is_dispatch ev then 1 else 0))%nat.
Proof.
  assert (Hloop : forall e' v w',
    Worker._processing w' = Worker._processing w ->
    (outcome_count (snd (Worker._masterLoop e' v w'))
     + size (Worker._processing (fst (Worker._masterLoop e' v w')))
     <= size (Worker._processing w))%nat).
  { intros e' v w' Hw'. unfold outcome_count.
    destruct (masterLoop_processing e' v w') as [-> ->]. rewrite Hw'.
    simpl. lia. }
  assert (Hfound : forall (m : gmap (option string) ProcessItem.t) i p,
    m !! i = Some p -> (1 + size (delete i m) <= size m)%nat).
  { intros m i p Hp. rewrite map_size_delete, Hp.
    pose proof (map_size_ne_0_lookup_2 m i (mk_is_Some _ _ Hp)). lia. }
  destruct ev as [c job|job optErr|job|optErr| |]; simpl.
  - unfold Worker._workStart.
    destruct (Worker._disposed w) eqn:Hd; simpl; [unfold outcome_count; simpl; lia|].
    pose proof (map_size_insert (JobItem.id job)
      (ProcessItem.set_timeout (Some (Worker.timer e))
         (JobItem.ProcessItem job (Worker.date_now e 0)))
      (Worker._processing w)) as Hins.
    destruct c as [|ex]; simpl.
    + unfold outcome_count; simpl.
      destruct (Worker._processing w !! JobItem.id job); simpl in Hins; lia.
    + unfold Worker._workFinish. simpl. rewrite Hd, lookup_insert_eq.
      pose proof (Hfound _ (JobItem.id job) _
        (lookup_insert_eq (Worker._processing w) (JobItem.id job)
           (ProcessItem.set_timeout (Some (Worker.timer e))
              (JobItem.ProcessItem job (Worker.date_now e 0))))) as Hdel.
      destruct (Worker.determine_success ex); unfold outcome_count; simpl;
        destruct (Worker._processing w !! JobItem.id job);
        simpl in Hins; lia.
  - unfold Worker._workFinish.
    destruct (Worker._disposed w); simpl; [unfold outcome_count; simpl; lia|].
    destruct (Worker._processing w !! JobItem.id job) as [p|] eqn:Hp.
    + pose proof (Hfound _ _ _ Hp).
      destruct (Worker.determine_success optErr); unfold outcome_count;
        simpl; lia.
    + specialize (Hloop e JUndefined w eq_refl).
      destruct (Worker._masterLoop e JUndefined w); simpl in *. lia.
  - unfold Worker._workTimeout.
    destruct (Worker._disposed w); simpl; [unfold outcome_count; simpl; lia|].
    destruct (Worker._processing w !! JobItem.id job) as [p|] eqn:Hp.
    + pose proof (Hfound _ _ _ Hp). unfold outcome_count; simpl; lia.
    + specialize (Hloop e JUndefined w eq_refl).
      destruct (Worker._masterLoop e JUndefined w); simpl in *. lia.
  - specialize (Hloop e optErr w eq_refl). lia.
  - unfold Worker.throttle_resume.
    specialize (Hloop e JUndefined
      (Worker.set_throttleCall [] (Worker.set_throttleOn false w)) eq_refl).
    lia.
  - rewrite map_size_empty. unfold outcome_count.
    destruct (Worker._throttleOn w); simpl; lia.
Qed.

Lemma run_count (evs : list (Worker.io * Lifecycle.event)) :
  forall w : Worker.t,
  (outcome_count (snd (Lifecycle.run evs w))
   + size (Worker._processing (fst (Lifecycle.run evs w)))
   <= size (Worker._processing w) + dispatch_count evs)%nat.
Proof.
  induction evs as [|[e ev] evs IH]; intros w; simpl.
  - unfold outcome_count, dispatch_count. simpl. lia.
  - pose proof (step_count e ev w) as H1.
    destruct (Lifecycle.step e ev w) as [w1 eff1]; simpl in *.
    specialize (IH w1).
    destruct (Lifecycle.run evs w1) as [w2 eff2]; simpl in *.
    unfold outcome_count, dispatch_count in *.
    rewrite filter_app, length_app, filter_cons. simpl.
    destruct (Lifecycle.is_dispatch ev); simpl in *; lia.
Qed.

(** C7, amended.  The timer of a job in flight on a worker that has not
    been disposed fires before the completion callback: the outcome
    processor is called with [success = false] and [optTimeout = true],
    the process item is in state GHOST, and the item is no longer in the
    map of the jobs in flight.  From then on, as long as no job of this id
    is dispatched to the worker again, it stays out of the map through
    every turn of the worker, no turn calls the outcome processor for a
    job of this id, and a call of the completion callback of the job
    finds no process item: it calls no outcome processor, leaves the job
    item and the map as they are, and so does the next one.  In any
    sequence of turns the outcome processor is called at most once per
    process item registered: at most as many times as there were jobs in
    flight at the start and jobs dispatched since. *)
Theorem late_completion_is_ignored (e : Worker.io) (job : JobItem.t)
    (w : Worker.t) (p : ProcessItem.t) :
  Worker._disposed w = false ->
  Worker._processing w !! JobItem.id job = Some p ->
  let r := Worker._workTimeout e job w in
  Worker.effects r
    = [Worker.Processed
         (JobItem.set_lastError (JString "processing timed out") job)
         false true] /\
  (exists p', Worker.item r = Some p' /\
     ProcessItem.state p' = States.P_GHOST /\
     ProcessItem.processTime p'
       = Some (Worker.date_now e 0 - ProcessItem.startTime p)) /\
  Worker._processing (Worker.worker r) !! JobItem.id job = None /\
  (forall evs : list (Worker.io * Lifecycle.event),
     Forall (fun ev => Lifecycle.is_dispatch_of (JobItem.id job) (snd ev) = false)
            evs ->
     let w' := fst (Lifecycle.run evs (Worker.worker r)) in
     Worker._processing w' !! JobItem.id job = None /\
     Forall (fun eff => Lifecycle.is_outcome_of (JobItem.id job) eff = false)
            (snd (Lifecycle.run evs (Worker.worker r))) /\
     forall (e' : Worker.io) (job' : JobItem.t) (optErr : jsval),
       JobItem.id job' = JobItem.id job ->
       let r' := Worker._workFinish e' job' optErr w' in
       outcome_count (Worker.effects r') = 0%nat /\
       Worker.job_after r' = job' /\
       Worker.item r' = None /\
       Worker._processing (Worker.worker r') = Worker._processing w') /\
  (forall (evs : list (Worker.io * Lifecycle.event)) (w0 : Worker.t),
     (outcome_count (snd (Lifecycle.run evs w0))
      <= size (Worker._processing w0) + dispatch_count evs)%nat).
Proof.
  intros Hd Hp r.
  assert (Hr : r = Worker.mk_result
            (Worker.set_processing
               (delete (JobItem.id job) (Worker._processing w)) w)
            (JobItem.set_lastError (JString "processing timed out") job)
            (Some (ProcessItem.set_errorMessage (JString "processing timed out")
                     (ProcessItem.set_state States.P_GHOST
                        (ProcessItem.set_processTime
                           (Some (Worker.date_now e 0 - ProcessItem.startTime p))
                           p))))
            [Worker.Processed
               (JobItem.set_lastError (JString "processing timed out") job)
               false true]).
  { unfold r, Worker._workTimeout. by rewrite Hd, Hp. }
  assert (Habs : Worker._processing (Worker.worker r) !! JobItem.id job = None).
  { rewrite Hr. simpl. apply lookup_delete_eq. }
  refine (conj _ (conj _ (conj Habs (conj _ _)))).
  - by rewrite Hr.
  - rewrite Hr. simpl. by eexists.
  - intros evs Hevs w'.
    destruct (run_absent (JobItem.id job) evs (Worker.worker r) Hevs Habs)
      as [Hw' Heff].
    fold w' in Hw'. refine (conj Hw' (conj Heff _)).
    intros e' job' optErr Hid r'. unfold r', Worker._workFinish.
    destruct (Worker._disposed w'); [by repeat split|].
    rewrite Hid, Hw'.
    destruct (masterLoop_processing e' JUndefined w') as [Hm He'].
    destruct (Worker._masterLoop e' JUndefined w') as [w'' eff'']; simpl in *.
    unfold outcome_count. by rewrite He'.
  - intros evs w0. pose proof (run_count evs w0). lia.
Qed.

Lemma late_completion_is_ignored_witness :
  let e := Worker.mk_io (fun _ => 1000) 1%nat in
  let e1 := Worker.mk_io (fun _ => 1050) 2%nat in
  let e2 := Worker.mk_io (fun _ => 1070) 3%nat in
  let job := JobItem.mk (Some "1") "mail" (JString "hi")
               (Some States.PROCESSING) 900 true 3 true 1 50 [] false false
               None None JNull in
  let w := Worker.worker
             (fst (Worker._workStart e Worker.Returns job
                     (Worker.Worker ["mail"] None))) in
  let r := Worker._workTimeout e1 job w in
  let evs := [(e2, Lifecycle.Done job JNull); (e2, Lifecycle.Loop JNull)] in
  let w' := fst (Lifecycle.run evs (Worker.worker r)) in
  Worker.effects r
    = [Worker.Processed
         (JobItem.set_lastError (JString "processing timed out") job)
         false true] /\
  outcome_count (snd (Lifecycle.run evs (Worker.worker r))) = 0%nat /\
  outcome_count (Worker.effects (Worker._workFinish e2 job (JString "late") w'))
    = 0%nat.
Proof.
  intros e e1 e2 job w r evs w'.
  destruct (late_completion_is_ignored e1 job w
              (ProcessItem.set_timeout (Some 1%nat) (JobItem.ProcessItem job 1000))
              eq_refl eq_refl)
    as (Heff & _ & _ & Hlater & _).
  split; [exact Heff|]. split; [reflexivity|].
  destruct (Hlater evs) as (_ & _ & Hdone).
  - repeat constructor.
  - apply (Hdone e2 job (JString "late") eq_refl).
Defined.

(** C7 as stated fails.  The timer of job "1" fires before its
    completion callback and the outcome processor is called with
    [success = false] and [optTimeout = true]; the job, retried as a
    ghost, is dispatched to the same worker again, which registers a new
    process item under the id; the completion callback of the first
    attempt, called after that, finds the new item and is no no-op: it
    calls the outcome processor for the job, with [success = true]. *)
Lemma completion_after_redispatch :
  let e := Worker.mk_io (fun _ => 1000) 1%nat in
  let e1 := Worker.mk_io (fun _ => 1050) 2%nat in
  let e2 := Worker.mk_io (fun _ => 1060) 3%nat in
  let e3 := Worker.mk_io (fun _ => 1070) 4%nat in
  let job := JobItem.mk (Some "1") "mail" (JString "hi")
               (Some States.PROCESSING) 900 true 3 true 1 50 [] false false
               None None JNull in
  let w1 := Worker.worker
              (fst (Worker._workStart e Worker.Returns job
                      (Worker.Worker ["mail"] None))) in
  let timed_out := Worker._workTimeout e1 job w1 in
  let w2 := Worker.worker timed_out in
  let w3 := Worker.worker
              (fst (Worker._workStart e2 Worker.Returns (Lifecycle.popped job) w2)) in
  let late := Worker._workFinish e3 job JNull w3 in
  Lifecycle.outcome_call (Worker.effects timed_out)
    = Some (JobItem.set_lastError (JString "processing timed out") job,
            false, true) /\
  (exists job', Lifecycle.outcome_call (Worker.effects late)
                = Some (job', true, false) /\
                JobItem.id job' = JobItem.id job) /\
  ~ (outcome_count (Worker.effects late) = 0%nat /\
     Worker._processing (Worker.worker late) = Worker._processing w3).
Proof.
  vm_compute. split; [reflexivity|]. split.
  - eexists. split; reflexivity.
  - intros [H _]. discriminate H.
Qed.

(** ** Create *)

(** What the promise of [JobModel.create] is settled with: it is always
    settled, and when it is rejected, the reason is the Database error of
    the INCR or of the ZADD, or what a method of the job item or of the
    queue model was rejected with. *)
Lemma create_settles (E : JobModel.env) (NS : string) (job : JobItem.t) :
  exists st, JobModel.cs_def (JobModel.create E NS job) = Settled st /\
    forall r, st = Rejected r ->
      r = Typed (kError.Database
                   (JobModel.redis_err E (JobModel.INCR (NS +:+ ":id")))) \/
      (exists score member,
         r = Typed (kError.Database
                      (JobModel.redis_err E
                         (JobModel.ZADD (NS +:+ ":time-index") score member)))) \/
      (exists c, JobModel.collaborator E c = Some r).
Proof.
  unfold JobModel.create.
  destruct (truthy (JobModel.redis_err E (JobModel.INCR (NS +:+ ":id")))).
  - unfold JobModel.def_reject. simpl. eexists. split; [reflexivity|].
    intros r [= <-]. by left.
  - unfold JobModel.bind, JobModel._saveQueue, JobModel.job_call,
      JobModel._saveTimeIndex, JobModel.then_, JobModel.def_reject,
      JobModel.def_resolve, JobModel.to_settled. simpl.
    repeat match goal with
           | |- context [JobModel.collaborator E ?c] =>
               let H := fresh "Hc" in
               destruct (JobModel.collaborator E c) eqn:H; simpl
           | |- context [JobModel.reject_returns_promise E] =>
               destruct (JobModel.reject_returns_promise E); simpl
           | |- context [truthy ?v] =>
               destruct (truthy v); simpl
           end;
      (eexists; split; [reflexivity|]); intros r' [= <-];
      solve [ right; right; eauto | right; left; eauto ].
Qed.

(** C8, amended.  A Create instance that has not been disposed and
    whose job model reports a failure: the deferred that [save] returned
    is rejected with the very error the job model reported, which is a
    typed Database error when the INCR or the ZADD failed and otherwise
    what a method of the job item or of the queue model was rejected with;
    this holds whether the user's callback returns or throws.  When the
    callback throws, [_onFail] throws its exception again after the
    rejection; it is thrown inside the handler that [then] runs, and ends
    as the rejection of the promise that [then] returned. *)
Theorem create_failure_rejects_deferred (E : JobModel.env) (NS : string)
    (c : Create.t) (j : JobItem.t) (r : reason) :
  Create._disposed c = false ->
  Create.job c = Some j ->
  Create.defer c = Pending ->
  JobModel.cs_def (JobModel.create E NS j) = Settled (Rejected r) ->
  let s := JobModel.create E NS j in
  Create.save_create E NS c = Return s /\
  Create.defer (fst (Create.save_settled s c)) = Settled (Rejected r) /\
  (Create.done c (Create.DoneErr r) = None ->
     snd (Create.save_settled s c) = Settled (Resolved ())) /\
  (forall v, Create.done c (Create.DoneErr r) = Some v ->
     snd (Create._onFail r c) = Throw (Thrown v) /\
     snd (Create.save_settled s c) = Settled (Rejected (Raised v))) /\
  (r = Typed (kError.Database
                (JobModel.redis_err E (JobModel.INCR (NS +:+ ":id")))) \/
   (exists score member,
      r = Typed (kError.Database
                   (JobModel.redis_err E
                      (JobModel.ZADD (NS +:+ ":time-index") score member)))) \/
   (exists call, JobModel.collaborator E call = Some r)).
Proof.
  intros Hd Hj Hp Hr s.
  refine (conj _ (conj _ (conj _ (conj _ _)))).
  - unfold Create.save_create. by rewrite Hj.
  - unfold Create.save_settled. fold s in Hr. rewrite Hr, Hj.
    unfold Create._onFail. simpl. rewrite Hd, Hp.
    by destruct (Create.done c (Create.DoneErr r)).
  - intros Hdone. unfold Create.save_settled. fold s in Hr. rewrite Hr, Hj.
    unfold Create._onFail. simpl. by rewrite Hd, Hdone.
  - intros v Hdone. split.
    + unfold Create._onFail. by rewrite Hd, Hdone.
    + unfold Create.save_settled. fold s in Hr. rewrite Hr, Hj.
      unfold Create._onFail. simpl. by rewrite Hd, Hdone.
  - destruct (create_settles E NS j) as (st & Hst & Hreason).
    rewrite Hst in Hr. injection Hr as ->. by apply Hreason.
Qed.

Lemma create_failure_rejects_deferred_witness :
  let E := JobModel.mk_env (fun _ => None)
             (fun _ => JString "ECONNREFUSED") 1 true in
  let j := JobItem.mk None "mail" (JString "hi") (Some States.NEW)
             900 true 3 true 1 50 [] false false None None JNull in
  let loud := Create.mk Pending (Some j)
                (fun _ => Some (JString "callback failed")) false in
  let quiet := Create.mk Pending (Some j) Create.noop false in
  let r := Typed (kError.Database (JString "ECONNREFUSED")) in
  let s := JobModel.create E "kickq" j in
  Create.defer (fst (Create.save_settled s loud)) = Settled (Rejected r) /\
  snd (Create._onFail r loud) = Throw (Thrown (JString "callback failed")) /\
  Create.defer (fst (Create.save_settled s quiet)) = Settled (Rejected r) /\
  snd (Create.save_settled s quiet) = Settled (Resolved ()).
Proof.
  intros E j loud quiet r s.
  destruct (create_failure_rejects_deferred E "kickq" loud j r
              eq_refl eq_refl eq_refl eq_refl)
    as (_ & Hdefer & _ & Hthrow & _).
  destruct (create_failure_rejects_deferred E "kickq" quiet j r
              eq_refl eq_refl eq_refl eq_refl)
    as (_ & Hdefer' & Hreturn & _).
  split; [exact Hdefer|].
  split; [apply (Hthrow (JString "callback failed") eq_refl)|].
  split; [exact Hdefer'|].
  apply Hreturn. reflexivity.
Defined.

(** C8 as stated fails.  (1) An instance that was disposed after [save]
    was called: the failure of the INCR reaches [_onFail], which returns
    at once, and the deferred stays pending.  (2) The create succeeds and
    the user's callback throws: the deferred is rejected with the value
    the callback threw, which is no typed error.  (3) The create fails and
    the user's callback throws: [_onFail] ends by throwing. *)
Lemma create_failure_not_always_typed_rejection :
  let failing := JobModel.mk_env (fun _ => None)
                   (fun _ => JString "ECONNREFUSED") 1 true in
  let working := JobModel.mk_env (fun _ => None) (fun _ => JNull) 1 true in
  let j := JobItem.mk None "mail" (JString "hi") (Some States.NEW)
             900 true 3 true 1 50 [] false false None None JNull in
  let quiet := Create.mk Pending (Some j) Create.noop false in
  let loud := Create.mk Pending (Some j)
                (fun _ => Some (JString "callback failed")) false in
  (JobModel.cs_def (JobModel.create failing "kickq" j)
     = Settled (Rejected (Typed (kError.Database (JString "ECONNREFUSED")))) /\
   Create.defer
     (fst (Create.save_settled (JobModel.create failing "kickq" j)
             (Create.dispose quiet)))
     = Pending /\
   ~ (exists r,
        Create.defer
          (fst (Create.save_settled (JobModel.create failing "kickq" j)
                  (Create.dispose quiet)))
        = Settled (Rejected r))) /\
  (JobModel.cs_def (JobModel.create working "kickq" j) = Settled (Resolved ()) /\
   Create.defer
     (fst (Create.save_settled (JobModel.create working "kickq" j) loud))
     = Settled (Rejected (Raised (JString "callback failed"))) /\
   ~ (exists e,
        Create.defer
          (fst (Create.save_settled (JobModel.create working "kickq" j) loud))
        = Settled (Rejected (Typed e)))) /\
  snd (Create._onFail (Typed (kError.Database (JString "ECONNREFUSED"))) loud)
    = Throw (Thrown (JString "callback failed")).
Proof.
  vm_compute. repeat split; try reflexivity; intros [x H]; discriminate H.
Qed.

(** ** The throttle of the master loop *)

Lemma throttle_buffer_trim (calls : list Z) (n : Z) :
  0 <= n ->
  (if Z.of_nat (length calls) >? n
   then drop (Z.to_nat (Z.of_nat (length calls) - n)) calls
   else calls)
  = last_entries (Z.to_nat n) calls.
Proof.
  intros Hn. unfold last_entries.
  destruct (Z.gtb_spec (Z.of_nat (length calls)) n).
  - f_equal. lia.
  - replace (length calls - Z.to_nat n)%nat with 0%nat by lia. reflexivity.
Qed.

Lemma last_entries_length {A : Type} (n : nat) (l : list A) :
  length (last_entries n l) = Nat.min n (length l).
Proof. unfold last_entries. rewrite length_drop. lia. Qed.

(** [_throttleLoop] on a worker that is neither throttled nor disposed:
    the invocation is recorded, the buffer keeps its last
    [throttleBufferLen] entries, and the answer is decided by the age of
    the oldest entry kept. *)
Lemma throttleLoop_spec (e : Worker.io) (w : Worker.t) :
  Worker._throttleOn w = false ->
  Worker._disposed w = false ->
  0 < Worker.throttleBufferLen w ->
  let kept := last_entries (Z.to_nat (Worker.throttleBufferLen w))
                (Worker._throttleCall w ++ [Worker.date_now e 0]) in
  exists oldest, head kept = Some oldest /\
    Worker._throttleLoop e w
    = if Worker.date_now e 1 - oldest >? Worker.THROTTLE_LIMIT
      then (false, (Worker.set_throttleCall kept w, []))
      else (true,
            (Worker.set_throttleTimeout (Some (Worker.timer e))
               (Worker.set_throttleOn true (Worker.set_throttleCall kept w)),
             [Worker.SetTimeout Worker.ThrottleResume Worker.THROTTLE_TIMEOUT
                (Worker.timer e)])).
Proof.
  intros Hon Hd Hlen kept.
  unfold Worker._throttleLoop. rewrite Hon, Hd. simpl orb. cbv iota.
  rewrite throttle_buffer_trim by lia. fold kept.
  assert (Hk : (0 < length kept)%nat).
  { unfold kept. rewrite last_entries_length, length_app. simpl. lia. }
  destruct kept as [|oldest kept']; [simpl in Hk; lia|].
  exists oldest. split; [reflexivity|]. simpl.
  by destruct (Worker.date_now e 1 - oldest >? Worker.THROTTLE_LIMIT).
Qed.

Lemma masterLoop_throttleOn (e : Worker.io) (optErr : jsval) (w : Worker.t) :
  Worker._throttleOn w = true ->
  Worker._throttleOn (fst (Worker._masterLoop e optErr w)) = true.
Proof.
  intros Hon. unfold Worker._masterLoop.
  destruct (Worker._disposed w); [done|].
  destruct (truthy optErr); [|done].
  unfold Worker._throttleLoop. by rewrite Hon.
Qed.

(** Once the throttle is on, only its timer turns it off. *)
Lemma throttle_stays_on (e : Worker.io) (ev : Lifecycle.event) (w : Worker.t) :
  ev <> Lifecycle.ThrottleTimer ->
  Worker._throttleOn w = true ->
  Worker._throttleOn (fst (Lifecycle.step e ev w)) = true.
Proof.
  intros Hev Hon.
  destruct ev as [c job|job optErr|job|optErr| |]; simpl; try done.
  - unfold Worker._workStart. destruct (Worker._disposed w) eqn:Hd; [done|].
    destruct c; [done|]. simpl.
    unfold Worker._workFinish. simpl. rewrite Hd, lookup_insert_eq.
    by destruct (Worker.determine_success ex).
  - unfold Worker._workFinish. destruct (Worker._disposed w); [done|].
    destruct (Worker._processing w !! JobItem.id job).
    + by destruct (Worker.determine_success optErr).
    + pose proof (masterLoop_throttleOn e JUndefined w Hon).
      by destruct (Worker._masterLoop e JUndefined w).
  - unfold Worker._workTimeout. destruct (Worker._disposed w); [done|].
    destruct (Worker._processing w !! JobItem.id job); [done|].
    pose proof (masterLoop_throttleOn e JUndefined w Hon).
    by destruct (Worker._masterLoop e JUndefined w).
  - by apply masterLoop_throttleOn.
Qed.

(** C9.  On a worker that has not been disposed, with its buffer length
    set by the constructor.  The master loop entered without an error
    does not look at the throttle: it counts the loop and issues the
    pops.  Entered with an error while the throttle is on, it stops at
    once and changes nothing; the throttle stays on through every turn
    but the one of its timer.  Entered with an error while the throttle
    is off, it records the invocation and keeps the last
    [concurrentJobs + 5] entries of the buffer; the throttle engages, with
    a timer of 5000 ms, exactly when the oldest entry kept is at most 5000
    ms old, and otherwise the loop goes on.  When the timer fires, the
    throttle is off, the buffer is empty and the loop runs. *)
Theorem throttle_on_error_path (e : Worker.io) (optErr : jsval) (w : Worker.t) :
  Worker._disposed w = false ->
  Worker.throttleBufferLen w = Worker.concurrentJobs w + Worker.BUFFER_GRACE ->
  0 <= Worker.concurrentJobs w ->
  let pops :=
    replicate
      (Z.to_nat (Worker.concurrentJobs w
                 - Z.of_nat (size (Worker._processing w))))
      (Worker.PopFetch (Worker.jobNames w)) in
  let kept :=
    last_entries (Z.to_nat (Worker.concurrentJobs w + 5))
      (Worker._throttleCall w ++ [Worker.date_now e 0]) in
  (truthy optErr = false ->
     Worker._masterLoop e optErr w
     = (Worker.set_loopCount (Worker.loopCount w + 1) w, pops)) /\
  (truthy optErr = true -> Worker._throttleOn w = true ->
     Worker._masterLoop e optErr w = (w, [Worker.LogWarn]) /\
     forall e' ev, ev <> Lifecycle.ThrottleTimer ->
       Worker._throttleOn (fst (Lifecycle.step e' ev w)) = true) /\
  (truthy optErr = true -> Worker._throttleOn w = false ->
     (length kept <= Z.to_nat (Worker.concurrentJobs w + 5))%nat /\
     exists oldest, head kept = Some oldest /\
       (Worker.date_now e 1 - oldest <= 5000 ->
          Worker._masterLoop e optErr w
          = (Worker.set_throttleTimeout (Some (Worker.timer e))
               (Worker.set_throttleOn true (Worker.set_throttleCall kept w)),
             [Worker.SetTimeout Worker.ThrottleResume 5000 (Worker.timer e);
              Worker.LogWarn])) /\
       (Worker.date_now e 1 - oldest > 5000 ->
          Worker._masterLoop e optErr w
          = (Worker.set_loopCount (Worker.loopCount w + 1)
               (Worker.set_throttleCall kept w), pops))) /\
  Worker.throttle_resume e w
  = (Worker.set_loopCount (Worker.loopCount w + 1)
       (Worker.set_throttleCall [] (Worker.set_throttleOn false w)), pops).
Proof.
  intros Hd Hlen Hc pops kept.
  refine (conj _ (conj _ (conj _ _))).
  - intros Herr. unfold Worker._masterLoop. by rewrite Hd, Herr.
  - intros Herr Hon. split.
    + unfold Worker._masterLoop, Worker._throttleLoop.
      by rewrite Hd, Herr, Hon.
    + intros e' ev Hev. by apply throttle_stays_on.
  - intros Herr Hon. split.
    { unfold kept. rewrite last_entries_length. lia. }
    destruct (throttleLoop_spec e w Hon Hd) as (oldest & Hhead & Hloop).
    { rewrite Hlen. unfold Worker.BUFFER_GRACE. lia. }
    rewrite Hlen in Hhead, Hloop. fold kept in Hhead, Hloop.
    exists oldest. split; [exact Hhead|].
    unfold Worker._masterLoop. rewrite Hd, Herr, Hloop.
    unfold Worker.THROTTLE_LIMIT, Worker.THROTTLE_TIMEOUT.
    split; intros Hage;
      destruct (Z.gtb_spec (Worker.date_now e 1 - oldest) 5000);
      try lia; reflexivity.
  - unfold Worker.throttle_resume, Worker._masterLoop. simpl.
    by rewrite Hd.
Qed.

Lemma throttle_on_error_path_witness :
  let w := Worker.Worker ["mail"] None in
  let e := Worker.mk_io (fun k => 1000 + Z.of_nat k) 9%nat in
  let err := JString "ECONNREFUSED" in
  let w1 := Worker.set_throttleTimeout (Some 9%nat)
              (Worker.set_throttleOn true (Worker.set_throttleCall [1000] w)) in
  Worker._masterLoop e JNull w
    = (Worker.set_loopCount 1 w, [Worker.PopFetch ["mail"]]) /\
  Worker._masterLoop e err w
    = (w1, [Worker.SetTimeout Worker.ThrottleResume 5000 9%nat; Worker.LogWarn]) /\
  Worker._masterLoop e err w1 = (w1, [Worker.LogWarn]) /\
  Worker._throttleOn (fst (Lifecycle.step e (Lifecycle.Loop JNull) w1)) = true /\
  Worker._masterLoop e err (Worker.set_throttleCall [-9000] w)
    = (Worker.set_loopCount 1 (Worker.set_throttleCall [-9000; 1000] w),
       [Worker.PopFetch ["mail"]]).
Proof.
  intros w e err w1.
  refine (conj _ (conj _ (conj _ (conj _ _)))).
  - apply (proj1 (throttle_on_error_path e JNull w eq_refl eq_refl
                    ltac:(discriminate))).
    reflexivity.
  - destruct (proj1 (proj2 (proj2 (throttle_on_error_path e err w eq_refl
                                     eq_refl ltac:(discriminate))))
                eq_refl eq_refl) as (_ & oldest & Hhead & Hon & _).
    injection Hhead as <-. apply Hon. discriminate.
  - apply (proj1 (proj2 (throttle_on_error_path e err w1 eq_refl eq_refl
                           ltac:(discriminate)))); reflexivity.
  - apply (proj2 (proj1 (proj2 (throttle_on_error_path e err w1 eq_refl eq_refl
                                  ltac:(discriminate)))
                    eq_refl eq_refl)).
    discriminate.
  - destruct (proj1 (proj2 (proj2 (throttle_on_error_path e err
                                     (Worker.set_throttleCall [-9000] w)
                                     eq_refl eq_refl ltac:(discriminate))))
                eq_refl eq_refl) as (_ & oldest & Hhead & _ & Hoff).
    injection Hhead as <-. apply Hoff. reflexivity.
Defined.

(** The buffer length that the constructor sets is the one the theorem
    assumes, and no turn changes it. *)
Lemma buffer_length_configured (names : list string) (opt : option Z)
    (evs : list (Worker.io * Lifecycle.event)) :
  let w := fst (Lifecycle.run evs (Worker.Worker names opt)) in
  Worker.throttleBufferLen w = Worker.concurrentJobs w + Worker.BUFFER_GRACE.
Proof.
  assert (Hloop : forall e v w,
    Worker.throttleBufferLen (fst (Worker._masterLoop e v w))
      = Worker.throttleBufferLen w /\
    Worker.concurrentJobs (fst (Worker._masterLoop e v w))
      = Worker.concurrentJobs w).
  { intros e v w. unfold Worker._masterLoop.
    destruct (Worker._disposed w); [done|].
    destruct (truthy v); [|done].
    unfold Worker._throttleLoop.
    destruct (Worker._throttleOn w || Worker._disposed w); [done|].
    match goal with |- context [if ?c then (false, _) else _] => destruct c end;
      done. }
  assert (Hstep : forall e ev w,
    Worker.throttleBufferLen (fst (Lifecycle.step e ev w))
      = Worker.throttleBufferLen w /\
    Worker.concurrentJobs (fst (Lifecycle.step e ev w))
      = Worker.concurrentJobs w).
  { intros e ev w.
    destruct ev as [c job|job optErr|job|optErr| |]; simpl; try done.
    - unfold Worker._workStart. destruct (Worker._disposed w) eqn:Hd; [done|].
      destruct c; [done|]. simpl.
      unfold Worker._workFinish. simpl. rewrite Hd, lookup_insert_eq.
      by destruct (Worker.determine_success ex).
    - unfold Worker._workFinish. destruct (Worker._disposed w); [done|].
      destruct (Worker._processing w !! JobItem.id job).
      + by destruct (Worker.determine_success optErr).
      + pose proof (Hloop e JUndefined w).
        by destruct (Worker._masterLoop e JUndefined w).
    - unfold Worker._workTimeout. destruct (Worker._disposed w); [done|].
      destruct (Worker._processing w !! JobItem.id job); [done|].
      pose proof (Hloop e JUndefined w).
      by destruct (Worker._masterLoop e JUndefined w).
    - unfold Worker.throttle_resume.
      apply (Hloop e JUndefined
               (Worker.set_throttleCall [] (Worker.set_throttleOn false w))). }
  intros w. subst w.
  generalize (Worker.Worker names opt) (eq_refl :
    Worker.throttleBufferLen (Worker.Worker names opt)
    = Worker.concurrentJobs (Worker.Worker names opt) + Worker.BUFFER_GRACE).
  induction evs as [|[e ev] evs IH]; intros w Hw; simpl; [exact Hw|].
  destruct (Hstep e ev w) as [Hb Hc].
  destruct (Lifecycle.step e ev w) as [w1 eff1]; simpl in *.
  specialize (IH w1). destruct (Lifecycle.run evs w1) as [w2 eff2].
  simpl in *. apply IH. congruence.
Qed.

(** Item data that parses to [null] is neither reported as missing nor as
    corrupt: the assignment of the state throws. *)
Remark fetchResponse_null (JSON_parse : string -> string + JobModel.json)
    (m : JobModel.t) (itemData : string) (state : option States.Job) :
  JSON_parse itemData = inr JobModel.JsonNull ->
  exists message,
    JobModel._fetchResponse JSON_parse m JNull (Some itemData, state)
    = Throw (TypeError message).
Proof. intros H. unfold JobModel._fetchResponse. simpl. rewrite H. by eexists. Qed.

(** ** Attempts that time out *)

(** On a worker that has not been disposed, an attempt that the consumer
    never answers ends with the call of [processed] on the job item as it
    was dispatched, but for its last error: the process item of the
    attempt is not added to [runs].  The worker stays undisposed. *)
Lemma timed_out_attempt_spec (E : JobModel.env) (i : Lifecycle.attempt_input)
    (job : JobItem.t) (w : Worker.t) :
  Worker._disposed w = false ->
  exists w',
    Lifecycle.timed_out_attempt E i job w
    = Some (w', JobModel.processed E (Lifecycle.at_processed i) false true
                  (JobItem.set_lastError (JString "processing timed out")
                     job)) /\
    Worker._disposed w' = false.
Proof.
  intros Hd.
  unfold Lifecycle.timed_out_attempt, Worker._workStart. rewrite Hd. simpl.
  unfold Worker._workTimeout. simpl. rewrite Hd, lookup_insert_eq. simpl.
  eexists. split; [reflexivity|].
  by rewrite masterLoop_disposed.
Qed.

(** With ghost retry and no more than [ghostTimes] GHOST items in the
    [runs] it is given, [processed] changes the state and nothing else. *)
Lemma processed_timeout_ghost (E : JobModel.env) (now : Z) (job : JobItem.t) :
  JobItem.ghostRetry job = true ->
  ghost_count (JobItem.runs job) <= JobItem.ghostTimes job ->
  JobModel.cs_job (JobModel.processed E now false true job)
  = JobItem.set_state (Some States.GHOST) job.
Proof.
  intros Hg Hle. rewrite processed_job.
  unfold JobModel.processed_branch, JobModel._processedTimeout.
  rewrite foldl_ghostCount, Z.add_0_l, Hg. simpl.
  destruct (Z.gtb_spec (ghost_count (JobItem.runs job))
              (JobItem.ghostTimes job)); [lia | done].
Qed.

(** C3.  What the code does where the claim has the job fail after
    [ghostTimes + 1] ghost attempts.  [_workTimeout] marks the process
    item of the attempt GHOST but, unlike [_workFinish], does not add it
    to [runs]; the count of [_processedTimeout] therefore does not grow.
    A job with ghost retry that holds no more than [ghostTimes] GHOST
    items, as every new job with [ghostTimes >= 0] does, and whose
    consumer never answers: every attempt is made, and every one leaves
    the job in GHOST, not complete if it was not, with [runs] as they
    were.  It never comes to FAIL. *)
Theorem silent_consumer_never_fails (E : JobModel.env)
    (inputs : list Lifecycle.attempt_input) :
  forall (job : JobItem.t) (w : Worker.t),
  Worker._disposed w = false ->
  JobItem.ghostRetry job = true ->
  ghost_count (JobItem.runs job) <= JobItem.ghostTimes job ->
  let records := Lifecycle.time_out E inputs job w in
  length records = length inputs /\
  Forall (fun j => JobItem.state j = Some States.GHOST /\
                   JobItem.complete j = JobItem.complete job /\
                   JobItem.runs j = JobItem.runs job) records.
Proof.
  induction inputs as [|i inputs IH]; intros job w Hd Hg Hle records.
  - by split.
  - subst records. cbn [Lifecycle.time_out].
    destruct (timed_out_attempt_spec E i job w Hd) as (w' & -> & Hd').
    set (timed := JobItem.set_lastError (JString "processing timed out") job).
    cbv zeta.
    rewrite (processed_timeout_ghost E (Lifecycle.at_processed i) timed Hg Hle).
    cbn [Lifecycle.is_terminal JobItem.state JobItem.set_state States.terminal].
    set (job1 := Lifecycle.popped (JobItem.set_state (Some States.GHOST) timed)).
    destruct (IH job1 w' Hd' Hg Hle) as [Hlen Hall].
    split; [simpl; by rewrite Hlen|].
    apply Forall_cons. split; [done|]. exact Hall.
Qed.

Lemma silent_consumer_never_fails_witness :
  let E := JobModel.mk_env (fun _ => None) (fun _ => JNull) 1 true in
  let i := Lifecycle.mk_attempt (Worker.mk_io (fun _ => 1000) 1%nat)
             (Worker.mk_io (fun _ => 1050) 2%nat) 1051 JUndefined in
  let job := JobItem.mk (Some "1") "mail" (JString "hi")
               (Some States.PROCESSING) 900 true 3 true 1 50 [] false false
               None None JNull in
  let w := Worker.Worker ["mail"] None in
  let records := Lifecycle.time_out E [i; i; i; i; i] job w in
  length records = 5%nat /\
  Forall (fun j => JobItem.state j = Some States.GHOST /\
                   JobItem.complete j = false /\
                   JobItem.runs j = []) records.
Proof.
  intros E i job w.
  apply (silent_consumer_never_fails E [i; i; i; i; i] job w).
  - reflexivity.
  - reflexivity.
  - vm_compute. discriminate.
Defined.

(** C6.  What the code does where the claim has the saved record contain
    the process item of the attempt.  A job that is dispatched on a worker
    that is not disposed and whose timer fires: the process item of the
    attempt is marked GHOST, and [processed] is called; every record that
    it hands to the update of the state index, to the save and to the
    queue model has the [runs] that the job had when it was dispatched,
    so that the record saved, which is saved when the update of the state
    index succeeds, holds no process item for the attempt. *)
Theorem timed_out_attempt_is_not_saved (E : JobModel.env)
    (i : Lifecycle.attempt_input) (job : JobItem.t) (w : Worker.t) :
  Worker._disposed w = false ->
  let started :=
    fst (Worker._workStart (Lifecycle.at_start i) Worker.Returns job w) in
  let r := Worker._workTimeout (Lifecycle.at_finish i)
             (Worker.job_after started) (Worker.worker started) in
  exists p w' s,
    Worker.item r = Some p /\
    ProcessItem.state p = States.P_GHOST /\
    Lifecycle.timed_out_attempt E i job w = Some (w', s) /\
    (forall c j, c ∈ JobModel.cs_calls s -> call_record c = Some j ->
       JobItem.runs j = JobItem.runs job) /\
    ((forall j st, JobModel.collaborator E (JobModel.SetState j st) = None) ->
       exists j, JobModel.Save j ∈ JobModel.cs_calls s /\
                 JobItem.runs j = JobItem.runs job).
Proof.
  intros Hd started r.
  destruct (timed_out_attempt_spec E i job w Hd) as (w' & Hatt & _).
  set (timed := JobItem.set_lastError (JString "processing timed out") job)
    in Hatt.
  set (now := Lifecycle.at_processed i) in Hatt.
  assert (Hruns : JobItem.runs (JobModel.processed_branch now false true timed)
                  = JobItem.runs job)
    by (by rewrite processed_branch_runs).
  pose proof (processed_calls E now false true timed) as Hcalls.
  cbv zeta in Hcalls.
  set (job' := JobModel.processed_branch now false true timed) in *.
  set (c1 := JobModel.SetState _ _) in Hcalls.
  assert (Hitem : exists p, Worker.item r = Some p /\
                            ProcessItem.state p = States.P_GHOST).
  { unfold r, started, Worker._workStart. rewrite Hd. simpl.
    unfold Worker._workTimeout. simpl. rewrite Hd, lookup_insert_eq. simpl.
    by eexists. }
  destruct Hitem as (p & Hp & Hstate).
  exists p, w', (JobModel.processed E now false true timed).
  refine (conj Hp (conj Hstate (conj Hatt (conj _ _)))).
  - intros c j Hin Hrec. rewrite Hcalls in Hin.
    destruct (JobModel.collaborator E c1);
      [destruct (JobModel.reject_returns_promise E)
      |destruct (JobModel.collaborator E (JobModel.Save job'))];
      set_unfold; destruct_or!; subst c; simpl in Hrec;
      injection Hrec as <-; exact Hruns.
  - intros Hok. rewrite Hcalls. unfold c1. rewrite Hok.
    exists job'. split; [|exact Hruns].
    destruct (JobModel.collaborator E (JobModel.Save job')); set_solver.
Qed.

Lemma timed_out_attempt_is_not_saved_witness :
  let E := JobModel.mk_env (fun _ => None) (fun _ => JNull) 1 true in
  let i := Lifecycle.mk_attempt (Worker.mk_io (fun _ => 1000) 1%nat)
             (Worker.mk_io (fun _ => 1050) 2%nat) 1051 JUndefined in
  let job := JobItem.mk (Some "1") "mail" (JString "hi")
               (Some States.PROCESSING) 900 true 3 true 1 50 [] false false
               None None JNull in
  let w := Worker.Worker ["mail"] None in
  let started :=
    fst (Worker._workStart (Lifecycle.at_start i) Worker.Returns job w) in
  let r := Worker._workTimeout (Lifecycle.at_finish i)
             (Worker.job_after started) (Worker.worker started) in
  exists p w' s,
    Worker.item r = Some p /\
    ProcessItem.state p = States.P_GHOST /\
    Lifecycle.timed_out_attempt E i job w = Some (w', s) /\
    (forall c j, c ∈ JobModel.cs_calls s -> call_record c = Some j ->
       JobItem.runs j = []) /\
    (exists j, JobModel.Save j ∈ JobModel.cs_calls s /\ JobItem.runs j = []).
Proof.
  intros E i job w.
  destruct (timed_out_attempt_is_not_saved E i job w eq_refl)
    as (p & w' & s & Hp & Hstate & Hatt & Hall & Hsave).
  exists p, w', s.
  refine (conj Hp (conj Hstate (conj Hatt (conj Hall (Hsave _))))).
  intros j st. reflexivity.
Defined.

(** * Further properties of the worker *)

(** X1.  The completion callback classifies an attempt as failed exactly
    when its argument is a string that is not empty or the boolean
    [false]; every other argument, the empty string among them, is a
    success. *)
Theorem failure_iff_message_or_false (optErr : jsval) :
  Worker.determine_success optErr = false <->
  (exists s, optErr = JString s /\ s <> "") \/ optErr = JBool false.
Proof.
  split.
  - destruct optErr as [| |[|]|n|[|a s]|m|d]; try discriminate.
    + by right.
    + intros _. left. by eexists.
  - intros [(s & -> & Hs) | ->]; [|reflexivity].
    destruct s; [done | reflexivity].
Qed.

(** X2.  A job that is dispatched and then completed through the callback
    on a worker that is not disposed: the timer that the completion
    clears is the one the dispatch set, the map of the jobs in flight is
    the old one without the job's id, the process item has the time
    between the two readings of the clock as its duration and SUCCESS or
    FAIL as its state, it is the last of the job's runs, and it is what
    the outcome processor is called with.  On a
    failure, and only then, the argument of the callback is kept as the
    error message of the item and as the last error of the job. *)
Theorem dispatch_then_complete (e e' : Worker.io) (job : JobItem.t)
    (optErr : jsval) (w : Worker.t) :
  Worker._disposed w = false ->
  let started := fst (Worker._workStart e Worker.Returns job w) in
  let r := Worker._workFinish e' (Worker.job_after started) optErr
             (Worker.worker started) in
  let success := Worker.determine_success optErr in
  Worker.effects started
    = [Worker.SetTimeout
         (Worker.WorkTimeout job
            (ProcessItem.set_timeout (Some (Worker.timer e))
               (JobItem.ProcessItem job (Worker.date_now e 0))))
         (JobItem.processTimeout job) (Worker.timer e);
       Worker.CallConsumer (JobItem.getPublic job) (JobItem.data job)] /\
  Worker.effects r
    = [Worker.ClearTimeout (Some (Worker.timer e));
       Worker.Processed (Worker.job_after r) success false] /\
  Worker._processing (Worker.worker r)
    = delete (JobItem.id job) (Worker._processing w) /\
  (exists p, Worker.item r = Some p /\
     JobItem.runs (Worker.job_after r) = JobItem.runs job ++ [p] /\
     ProcessItem.startTime p = Worker.date_now e 0 /\
     ProcessItem.processTime p
       = Some (Worker.date_now e' 0 - Worker.date_now e 0) /\
     ProcessItem.state p
       = (if success then States.P_SUCCESS else States.P_FAIL) /\
     ProcessItem.errorMessage p = (if success then JNull else optErr)) /\
  JobItem.lastError (Worker.job_after r)
    = (if success then JobItem.lastError job else optErr) /\
  JobItem.id (Worker.job_after r) = JobItem.id job.
Proof.
  intros Hd started r success.
  unfold r, started, success, Worker._workStart. rewrite Hd. simpl.
  unfold Worker._workFinish. simpl. rewrite Hd, lookup_insert_eq.
  destruct (Worker.determine_success optErr); simpl;
    rewrite delete_insert_eq;
    (split; [reflexivity|]); (split; [reflexivity|]);
    (split; [reflexivity|]);
    (split; [eexists; repeat split; reflexivity|]);
    split; reflexivity.
Qed.

Lemma dispatch_then_complete_witness :
  let e := Worker.mk_io (fun _ => 1000) 1%nat in
  let e' := Worker.mk_io (fun _ => 1040) 2%nat in
  let job := JobItem.mk (Some "1") "mail" (JString "hi")
               (Some States.PROCESSING) 900 true 3 true 1 50 [] false false
               None None JNull in
  let w := Worker.Worker ["mail"] None in
  let started := fst (Worker._workStart e Worker.Returns job w) in
  let r := Worker._workFinish e' (Worker.job_after started) (JString "oops")
             (Worker.worker started) in
  Worker._processing (Worker.worker r)
    = delete (Some "1") (Worker._processing w) /\
  JobItem.lastError (Worker.job_after r) = JString "oops".
Proof.
  intros e e' job w started r.
  destruct (dispatch_then_complete e e' job (JString "oops") w eq_refl)
    as (_ & _ & Hmap & _ & Hlast & _).
  split; [exact Hmap | exact Hlast].
Defined.

(** X3.  Once the completion callback has taken the process item of a
    job out of the map, and until a job of this id is dispatched again,
    neither a second call of the callback nor the timer of the job calls
    the outcome processor again, whatever the worker does in between: both
    find no process item and do what the master loop entered without an
    argument does, which includes asking for new jobs. *)
Theorem completion_is_once (e : Worker.io) (job : JobItem.t) (optErr : jsval)
    (w : Worker.t) (p : ProcessItem.t) :
  Worker._disposed w = false ->
  Worker._processing w !! JobItem.id job = Some p ->
  let r := Worker._workFinish e job optErr w in
  outcome_count (Worker.effects r) = 1%nat /\
  Worker._processing (Worker.worker r) !! JobItem.id job = None /\
  forall evs : list (Worker.io * Lifecycle.event),
    Forall (fun ev => Lifecycle.is_dispatch_of (JobItem.id job) (snd ev) = false)
           evs ->
    let w' := fst (Lifecycle.run evs (Worker.worker r)) in
    Forall (fun eff => Lifecycle.is_outcome_of (JobItem.id job) eff = false)
           (snd (Lifecycle.run evs (Worker.worker r))) /\
    forall (e' : Worker.io) (job' : JobItem.t),
      JobItem.id job' = JobItem.id job ->
      (forall optErr',
         let r' := Worker._workFinish e' job' optErr' w' in
         (Worker.worker r', Worker.effects r')
           = Worker._masterLoop e' JUndefined w' /\
         Worker.job_after r' = job' /\
         outcome_count (Worker.effects r') = 0%nat) /\
      (let r' := Worker._workTimeout e' job' w' in
       (Worker.worker r', Worker.effects r')
         = Worker._masterLoop e' JUndefined w' /\
       Worker.job_after r' = job' /\
       outcome_count (Worker.effects r') = 0%nat).
Proof.
  intros Hd Hp r.
  assert (Habs : Worker._processing (Worker.worker r) !! JobItem.id job = None).
  { unfold r, Worker._workFinish. rewrite Hd, Hp.
    destruct (Worker.determine_success optErr); simpl; apply lookup_delete_eq. }
  split.
  { unfold r, Worker._workFinish. rewrite Hd, Hp.
    by destruct (Worker.determine_success optErr). }
  split; [exact Habs|].
  intros evs Hevs w'.
  destruct (run_absent (JobItem.id job) evs (Worker.worker r) Hevs Habs)
    as [Hw' Heff].
  fold w' in Hw'. split; [exact Heff|].
  intros e' job' Hid.
  assert (Hloop : outcome_count (snd (Worker._masterLoop e' JUndefined w')) = 0%nat).
  { unfold outcome_count.
    by rewrite (proj2 (masterLoop_processing e' JUndefined w')). }
  assert (Hdisp : Worker._disposed w' = true ->
                  Worker._masterLoop e' JUndefined w' = (w', [])).
  { intros H. unfold Worker._masterLoop. by rewrite H. }
  split.
  - intros optErr' r'. unfold r', Worker._workFinish.
    destruct (Worker._disposed w') eqn:Hd'.
    + rewrite Hdisp by done. by repeat split.
    + rewrite Hid, Hw'.
      destruct (Worker._masterLoop e' JUndefined w') as [w'' eff''].
      by repeat split.
  - intros r'. unfold r', Worker._workTimeout.
    destruct (Worker._disposed w') eqn:Hd'.
    + rewrite Hdisp by done. by repeat split.
    + rewrite Hid, Hw'.
      destruct (Worker._masterLoop e' JUndefined w') as [w'' eff''].
      by repeat split.
Qed.

Lemma completion_is_once_witness :
  let e := Worker.mk_io (fun _ => 1000) 1%nat in
  let e1 := Worker.mk_io (fun _ => 1040) 2%nat in
  let e2 := Worker.mk_io (fun _ => 1050) 3%nat in
  let job := JobItem.mk (Some "1") "mail" (JString "hi")
               (Some States.PROCESSING) 900 true 3 true 1 50 [] false false
               None None JNull in
  let w := Worker.worker
             (fst (Worker._workStart e Worker.Returns job
                     (Worker.Worker ["mail"] None))) in
  let r := Worker._workFinish e1 job JNull w in
  let evs := [(e2, Lifecycle.Done job (JString "again"));
              (e2, Lifecycle.TimerFired job)] in
  outcome_count (Worker.effects r) = 1%nat /\
  Forall (fun eff => Lifecycle.is_outcome_of (Some "1") eff = false)
         (snd (Lifecycle.run evs (Worker.worker r))).
Proof.
  intros e e1 e2 job w r evs.
  destruct (completion_is_once e1 job JNull w
              (ProcessItem.set_timeout (Some 1%nat) (JobItem.ProcessItem job 1000))
              eq_refl eq_refl)
    as (Hone & _ & Hlater).
  split; [exact Hone|].
  apply (Hlater evs). repeat constructor.
Defined.



(** * Further properties of the outcome processor *)

(** X5.  An attempt that reported an error ([success = false], no
    timeout): without retry the job fails for good; with it, the job
    becomes RETRY, with nothing else changed, while [runs] has fewer
    entries than [retryTimes], and fails for good otherwise, with
    [success = false] and [complete = true]. *)
Theorem processedError_transitions (E : JobModel.env) (now : Z)
    (job : JobItem.t) :
  let job' := JobModel.cs_job (JobModel.processed E now false false job) in
  let attempts := Z.of_nat (length (JobItem.runs job)) in
  (JobItem.retry job = false ->
     JobItem.state job' = Some States.FAIL /\ JobItem.complete job' = true /\
     JobItem.success job' = false) /\
  (JobItem.retry job = true -> attempts < JobItem.retryTimes job ->
     job' = JobItem.set_state (Some States.RETRY) job) /\
  (JobItem.retry job = true -> JobItem.retryTimes job <= attempts ->
     JobItem.state job' = Some States.FAIL /\ JobItem.complete job' = true /\
     JobItem.success job' = false /\ JobItem.finishTime job' = Some now).
Proof.
  intros job' attempts. subst job'. rewrite processed_job.
  unfold JobModel.processed_branch, JobModel._processedError. fold attempts.
  destruct (finishJob_fields now false job) as (Hs & Hc & Hsu & Hf & _).
  refine (conj _ (conj _ _)).
  - intros ->. by simpl.
  - intros -> Hlt. simpl.
    destruct (Z.ltb_spec attempts (JobItem.retryTimes job)); [done | lia].
  - intros -> Hge. simpl.
    destruct (Z.ltb_spec attempts (JobItem.retryTimes job)); [lia | done].
Qed.

Lemma processedError_transitions_witness :
  let E := JobModel.mk_env (fun _ => None) (fun _ => JNull) 1 true in
  let run := ProcessItem.mk 1 0 (Some 50) States.P_FAIL (JString "oops") None in
  let job retry runs :=
    JobItem.mk (Some "1") "mail" (JString "hi") (Some States.PROCESSING)
      0 retry 2 true 1 50 runs false false None None (JString "oops") in
  let state_after j :=
    JobItem.state (JobModel.cs_job (JobModel.processed E 100 false false j)) in
  state_after (job false [run]) = Some States.FAIL /\
  state_after (job true [run]) = Some States.RETRY /\
  state_after (job true [run; run]) = Some States.FAIL.
Proof.
  intros E run job state_after.
  refine (conj _ (conj _ _)).
  - apply (proj1 (processedError_transitions E 100 (job false [run]))).
    reflexivity.
  - unfold state_after.
    rewrite (proj1 (proj2 (processedError_transitions E 100 (job true [run])))
               eq_refl); reflexivity.
  - apply (proj2 (proj2 (processedError_transitions E 100
                           (job true [run; run]))));
      [reflexivity | discriminate].
Defined.






(** [k] failing attempts within the limit, then a successful one. *)
Lemma consume_retry_then_success (E : JobModel.env) (k : nat) :
  forall (inputs : list Lifecycle.attempt_input) (job : JobItem.t)
         (w : Worker.t),
  Worker._disposed w = false ->
  ((0 < k)%nat ->
   JobItem.retry job = true /\
   Z.of_nat (length (JobItem.runs job) + k) < JobItem.retryTimes job) ->
  Forall (fun i => Worker.determine_success (Lifecycle.optErr i) = false)
         (take k inputs) ->
  (exists i, inputs !! k = Some i /\
     Worker.determine_success (Lifecycle.optErr i) = true) ->
  let r := Lifecycle.consume E inputs job w in
  snd r = S k /\
  JobItem.state (fst r) = Some States.SUCCESS /\
  length (JobItem.runs (fst r)) = (length (JobItem.runs job) + k + 1)%nat /\
  JobItem.success (fst r) = true /\
  JobItem.complete (fst r) = true /\
  (ProcessItem.state <$> last (JobItem.runs (fst r))) = Some States.P_SUCCESS.
Proof.
  induction k as [|k IH]; intros inputs job w Hd Hpolicy Herr (i' & Hi' & Hok);
    (destruct inputs as [|i inputs]; [discriminate|]);
    destruct (attempt_spec E i job w Hd) as (w' & Hatt & Hd').
  - injection Hi' as <-.
    destruct (finishJob_fields (Lifecycle.at_processed i) true
                (finished_job i job)) as (Hs & Hc & Hsu & _ & _ & Hr).
    assert (Hruns : JobItem.runs (finished_job i job)
                    = JobItem.runs job ++ [finished_item i job])
      by (unfold finished_job; by rewrite Hok).
    simpl. rewrite Hatt, Hok, processed_job.
    unfold JobModel.processed_branch. rewrite Hs.
    simpl Lifecycle.is_terminal. cbv iota. unfold fst, snd.
    rewrite Hs, Hc, Hsu, Hr, Hruns, length_app, last_snoc.
    unfold finished_item. rewrite Hok. simpl. repeat split; lia.
  - simpl in Herr. apply Forall_cons in Herr as [Hi Herr].
    destruct Hpolicy as [Hretry Hlimit]; [lia|].
    assert (Hruns : length (JobItem.runs (finished_job i job))
                    = S (length (JobItem.runs job)))
      by (unfold finished_job; rewrite Hi; simpl; rewrite length_app;
          simpl; lia).
    assert (Hr : JobItem.retry (finished_job i job) = true)
      by (unfold finished_job; rewrite Hi; exact Hretry).
    assert (Ht : JobItem.retryTimes (finished_job i job)
                 = JobItem.retryTimes job)
      by (unfold finished_job; rewrite Hi; reflexivity).
    simpl. rewrite Hatt, Hi, processed_job.
    unfold JobModel.processed_branch, JobModel._processedError.
    rewrite Hr, Ht, Hruns. simpl negb. cbv iota.
    destruct (Z.ltb_spec (Z.of_nat (S (length (JobItem.runs job))))
                (JobItem.retryTimes job)); [|lia].
    simpl Lifecycle.is_terminal. cbv iota.
    set (job1 := Lifecycle.popped
                   (JobItem.set_state (Some States.RETRY) (finished_job i job))).
    assert (Hruns1 : JobItem.runs job1 = JobItem.runs (finished_job i job))
      by reflexivity.
    assert (Hpolicy1 : (0 < k)%nat ->
              JobItem.retry job1 = true /\
              Z.of_nat (length (JobItem.runs job1) + k)
              < JobItem.retryTimes job1).
    { intros _. split; [exact Hr|]. rewrite Hruns1, Hruns.
      change (JobItem.retryTimes job1)
        with (JobItem.retryTimes (finished_job i job)). lia. }
    destruct (IH inputs job1 w' Hd' Hpolicy1 Herr)
      as (Hn & Hs & Hl & Hsu & Hc & Hlast).
    { by exists i'. }
    rewrite Hruns1, Hruns in Hl.
    destruct (Lifecycle.consume E inputs job1 w') as [job' n]; simpl in *.
    repeat split; try done; lia.
Qed.

(** X8.  A new job with [retry == true] whose consumer reports an error
    [k] times, with [k] below [retryTimes], and then a success: it is
    attempted [k + 1] times, ends in SUCCESS with [success] and
    [complete] set, and [runs] has one entry per attempt, the last one in
    state SUCCESS.  A job that succeeds at once needs no retry policy. *)
Theorem retry_then_success (E : JobModel.env) (k : nat)
    (inputs : list Lifecycle.attempt_input) (i : Lifecycle.attempt_input)
    (job : JobItem.t) (w : Worker.t) :
  Worker._disposed w = false ->
  JobItem.runs job = [] ->
  ((0 < k)%nat ->
   JobItem.retry job = true /\ Z.of_nat k < JobItem.retryTimes job) ->
  Forall (fun i => Worker.determine_success (Lifecycle.optErr i) = false)
         (take k inputs) ->
  inputs !! k = Some i ->
  Worker.determine_success (Lifecycle.optErr i) = true ->
  let r := Lifecycle.consume E inputs job w in
  snd r = S k /\
  JobItem.state (fst r) = Some States.SUCCESS /\
  length (JobItem.runs (fst r)) = S k /\
  JobItem.success (fst r) = true /\
  JobItem.complete (fst r) = true /\
  (ProcessItem.state <$> last (JobItem.runs (fst r))) = Some States.P_SUCCESS.
Proof.
  intros Hd Hruns Hpolicy Herr Hi Hok.
  pose proof (consume_retry_then_success E k inputs job w Hd) as H.
  rewrite Hruns in H. simpl in H.
  replace (k + 1)%nat with (S k) in H by lia.
  apply H; [done | done | by exists i].
Qed.

Lemma retry_then_success_witness :
  let E := JobModel.mk_env (fun _ => None) (fun _ => JNull) 1 true in
  let bad := Lifecycle.mk_attempt (Worker.mk_io (fun _ => 1000) 1%nat)
               (Worker.mk_io (fun _ => 1040) 2%nat) 1041 (JString "oops") in
  let good := Lifecycle.mk_attempt (Worker.mk_io (fun _ => 2000) 3%nat)
                (Worker.mk_io (fun _ => 2040) 4%nat) 2041 JNull in
  let job := JobItem.mk (Some "1") "mail" (JString "hi")
               (Some States.PROCESSING) 900 true 3 true 1 50 [] false false
               None None JNull in
  let r := Lifecycle.consume E [bad; good] job (Worker.Worker ["mail"] None) in
  snd r = 2%nat /\ JobItem.state (fst r) = Some States.SUCCESS.
Proof.
  intros E bad good job r.
  destruct (retry_then_success E 1 [bad; good] good job
              (Worker.Worker ["mail"] None) eq_refl eq_refl)
    as (Hn & Hs & _); try reflexivity.
  - intros _. split; [reflexivity | reflexivity].
  - by repeat constructor.
  - split; [exact Hn | exact Hs].
Defined.

(** X9.  The promise that [processed] returns is settled once the
    storage has answered: it is rejected with the reason of the first
    call that failed, the update of the state index, the save or the call
    of the queue model, and it is resolved only when all three
    succeeded. *)
Theorem processed_settles (E : JobModel.env) (now : Z)
    (success optTimeout : bool) (job : JobItem.t) :
  let job' := JobModel.processed_branch now success optTimeout job in
  let c1 := JobModel.SetState (JobItem.set_state (JobItem.state job) job')
              (JobItem.state job') in
  let c2 := JobModel.Save job' in
  let c3 := JobModel.QueueSave job' in
  JobModel.cs_def (JobModel.processed E now success optTimeout job)
  = Settled
      match JobModel.collaborator E c1, JobModel.collaborator E c2,
            JobModel.collaborator E c3 with
      | Some r, _, _ => Rejected r
      | None, Some r, _ => Rejected r
      | None, None, Some r => Rejected r
      | None, None, None => Resolved ()
      end.
Proof.
  intros job' c1 c2 c3. subst c1 c2 c3.
  unfold JobModel.processed. fold job'.
  unfold JobModel.bind, JobModel.job_setState, JobModel._saveQueue,
    JobModel.job_call; simpl.
  rewrite !set_state_restore.
  destruct (JobModel.collaborator E (JobModel.SetState _ _)) as [r1|]; simpl.
  - unfold JobModel.def_reject; simpl.
    destruct (JobModel.reject_returns_promise E); simpl; [reflexivity|].
    by destruct (JobModel.collaborator E (JobModel.QueueSave job')).
  - destruct (JobModel.collaborator E (JobModel.Save job')) as [r2|]; simpl.
    + unfold JobModel.def_reject; simpl.
      by destruct (JobModel.reject_returns_promise E).
    + destruct (JobModel.collaborator E (JobModel.QueueSave job')); simpl;
        [|reflexivity].
      unfold JobModel.def_reject; simpl.
      by destruct (JobModel.reject_returns_promise E).
Qed.

(** X10.  The outcome processor does not touch what identifies a job and
    what was asked for: id, name, data, creation time, the retry and
    ghost policy, the timeout, the runs and the last error are after
    [processed] what they were before, for every outcome.  When the new
    state is not SUCCESS or FAIL, the state is all that changed. *)
Theorem processed_keeps_job (E : JobModel.env) (now : Z)
    (success optTimeout : bool) (job : JobItem.t) :
  let job' :=
    JobModel.cs_job (JobModel.processed E now success optTimeout job) in
  (JobItem.id job' = JobItem.id job /\
   JobItem.name job' = JobItem.name job /\
   JobItem.data job' = JobItem.data job /\
   JobItem.createTime job' = JobItem.createTime job /\
   JobItem.retry job' = JobItem.retry job /\
   JobItem.retryTimes job' = JobItem.retryTimes job /\
   JobItem.ghostRetry job' = JobItem.ghostRetry job /\
   JobItem.ghostTimes job' = JobItem.ghostTimes job /\
   JobItem.processTimeout job' = JobItem.processTimeout job /\
   JobItem.runs job' = JobItem.runs job /\
   JobItem.lastError job' = JobItem.lastError job) /\
  (Lifecycle.is_terminal (JobItem.state job') = false ->
   job' = JobItem.set_state (JobItem.state job') job /\
   (JobItem.state job' = Some States.RETRY \/
    JobItem.state job' = Some States.GHOST)).
Proof.
  intros job'. subst job'. rewrite processed_job.
  destruct (processed_branch_cases now success optTimeout job)
    as [[outcome ->] | [-> | ->]].
  - split; [by repeat split|]. by destruct outcome.
  - split; [by repeat split|]. intros _. split; [done | by left].
  - split; [by repeat split|]. intros _. split; [done | by right].
Qed.

Lemma processed_keeps_job_witness :
  let E := JobModel.mk_env (fun _ => None) (fun _ => JNull) 1 true in
  let run := ProcessItem.mk 1 0 (Some 50) States.P_FAIL (JString "oops") None in
  let job :=
    JobItem.mk (Some "1") "mail" (JString "hi") (Some States.PROCESSING)
      0 true 3 true 1 50 [run] false false None None (JString "oops") in
  JobModel.cs_job (JobModel.processed E 100 false false job)
  = JobItem.set_state (Some States.RETRY) job.
Proof.
  intros E run job.
  apply (proj2 (processed_keeps_job E 100 false false job)).
  reflexivity.
Defined.

(** * Further properties of create *)

(** X11.  The calls of [JobModel.create].  When the INCR fails, nothing
    else is called, the job item keeps the id it had and the promise is
    rejected with a Database error.  When it succeeds, the job item gets
    the answer as its id, written as a string, and nothing else of it
    changes; the calls that follow are made in the order save, state,
    time index of the item, queue, ZADD, each at most once; with when.js,
    where a rejection stays a rejection, they stop at the first failure;
    and when nothing fails all of them are made and the promise is
    resolved. *)
Theorem create_calls_in_order (E : JobModel.env) (NS : string)
    (job : JobItem.t) :
  let s := JobModel.create E NS job in
  let incr := JobModel.INCR (NS +:+ ":id") in
  let j := JobItem.set_id (Some (pretty (JobModel.incr_id E))) job in
  let zadd := JobModel.ZADD (NS +:+ ":time-index") (JobItem.createTime j)
                (JobItem.id j) in
  (truthy (JobModel.redis_err E incr) = true ->
     JobModel.cs_calls s = [JobModel.Redis incr] /\
     JobModel.cs_job s = job /\
     JobModel.cs_def s
       = Settled (Rejected (Typed (kError.Database (JobModel.redis_err E incr))))) /\
  (truthy (JobModel.redis_err E incr) = false ->
     JobModel.cs_job s = j /\
     JobModel.cs_calls s `sublist_of` create_sequence E NS job /\
     head (JobModel.cs_calls s) = Some (JobModel.Redis incr) /\
     (JobModel.reject_returns_promise E = true ->
        JobModel.cs_calls s `prefix_of` create_sequence E NS job) /\
     ((forall c, JobModel.collaborator E c = None) ->
      truthy (JobModel.redis_err E zadd) = false ->
        JobModel.cs_calls s = create_sequence E NS job /\
        JobModel.cs_def s = Settled (Resolved ()))).
Proof.
  intros s incr j zadd. subst s. unfold JobModel.create. fold incr.
  destruct (truthy (JobModel.redis_err E incr)) eqn:Hincr.
  - split; [intros _ | discriminate].
    unfold JobModel.def_reject. simpl. by repeat split.
  - split; [discriminate | intros _].
    unfold create_sequence, JobModel.bind, JobModel._saveQueue,
      JobModel.job_call, JobModel._saveTimeIndex, JobModel.then_,
      JobModel.def_reject, JobModel.def_resolve, JobModel.to_settled.
    fold incr j. simpl. fold zadd.
    repeat match goal with
           | |- context [JobModel.collaborator E ?c] =>
               let H := fresh "Hc" in
               destruct (JobModel.collaborator E c) eqn:H; simpl
           | |- context [JobModel.reject_returns_promise E] =>
               let H := fresh "Hr" in
               destruct (JobModel.reject_returns_promise E) eqn:H; simpl
           | |- context [truthy (JobModel.redis_err E (JobModel.ZADD ?k ?sc ?m))] =>
               let H := fresh "Hz" in
               destruct (truthy (JobModel.redis_err E (JobModel.ZADD k sc m)))
                 eqn:H; simpl
           end;
      (split; [reflexivity|]);
      (split; [repeat constructor|]);
      (split; [reflexivity|]);
      (split; [first [discriminate | intros _; by eexists]|]);
      intros Hall Hzadd; unfold zadd, j in Hzadd; simpl in Hzadd;
      first [ by split
            | congruence
            | match goal with
              | H : JobModel.collaborator E ?c = Some _ |- _ =>
                  rewrite (Hall c) in H; discriminate H
              end ].
Qed.

Lemma create_calls_in_order_witness :
  let down := JobModel.mk_env (fun _ => None)
                (fun _ => JString "ECONNREFUSED") 1 true in
  let up := JobModel.mk_env (fun _ => None) (fun _ => JNull) 41 true in
  let job := JobItem.mk None "mail" (JString "hi") (Some States.NEW)
               900 true 3 true 1 50 [] false false None None JNull in
  JobModel.cs_calls (JobModel.create down "kickq" job)
    = [JobModel.Redis (JobModel.INCR "kickq:id")] /\
  JobItem.id (JobModel.cs_job (JobModel.create up "kickq" job)) = Some "41" /\
  JobModel.cs_calls (JobModel.create up "kickq" job)
    = create_sequence up "kickq" job.
Proof.
  intros down up job.
  destruct (create_calls_in_order down "kickq" job) as [Hdown _].
  destruct (create_calls_in_order up "kickq" job) as [_ Hup].
  destruct (Hdown eq_refl) as (Hcalls & _).
  destruct (Hup eq_refl) as (Hjob & _ & _ & _ & Hall).
  split; [exact Hcalls|].
  split; [by rewrite Hjob|].
  apply Hall; reflexivity.
Defined.

(** X13.  A create in which only the last step, the ZADD of the time
    index, fails: the promise is rejected with a Database error although
    the record has been saved and the job handed to the queue model
    before. *)
Theorem create_fails_after_queueing (E : JobModel.env) (NS : string)
    (job : JobItem.t) :
  let j := JobItem.set_id (Some (pretty (JobModel.incr_id E))) job in
  let zadd := JobModel.ZADD (NS +:+ ":time-index") (JobItem.createTime j)
                (JobItem.id j) in
  truthy (JobModel.redis_err E (JobModel.INCR (NS +:+ ":id"))) = false ->
  (forall c, JobModel.collaborator E c = None) ->
  truthy (JobModel.redis_err E zadd) = true ->
  let s := JobModel.create E NS job in
  JobModel.cs_calls s = create_sequence E NS job /\
  JobModel.Save j ∈ JobModel.cs_calls s /\
  JobModel.QueueSave j ∈ JobModel.cs_calls s /\
  JobModel.cs_def s
    = Settled (Rejected (Typed (kError.Database (JobModel.redis_err E zadd)))).
Proof.
  intros j zadd Hincr Hall Hzadd s.
  assert (Hcalls : JobModel.cs_calls s = create_sequence E NS job /\
            JobModel.cs_def s
            = Settled (Rejected (Typed (kError.Database
                                          (JobModel.redis_err E zadd))))).
  { unfold s, JobModel.create. rewrite Hincr.
    unfold create_sequence, JobModel.bind, JobModel._saveQueue,
      JobModel.job_call, JobModel._saveTimeIndex, JobModel.then_,
      JobModel.def_reject, JobModel.def_resolve, JobModel.to_settled.
    simpl. rewrite !Hall. simpl.
    unfold zadd, j in Hzadd. simpl in Hzadd. rewrite Hzadd. simpl.
    by destruct (JobModel.reject_returns_promise E). }
  destruct Hcalls as [Hcalls Hdef]. rewrite Hcalls.
  split; [reflexivity|]. unfold create_sequence. fold j.
  split; [set_solver|]. split; [set_solver | exact Hdef].
Qed.

Lemma create_fails_after_queueing_witness :
  let E := JobModel.mk_env (fun _ => None)
             (fun c => match c with
                       | JobModel.ZADD _ _ _ => JString "READONLY"
                       | _ => JNull
                       end) 41 true in
  let job := JobItem.mk None "mail" (JString "hi") (Some States.NEW)
               900 true 3 true 1 50 [] false false None None JNull in
  JobModel.cs_calls (JobModel.create E "kickq" job)
    = create_sequence E "kickq" job /\
  JobModel.cs_def (JobModel.create E "kickq" job)
    = Settled (Rejected (Typed (kError.Database (JString "READONLY")))).
Proof.
  intros E job.
  destruct (create_fails_after_queueing E "kickq" job eq_refl
              (fun _ => eq_refl) eq_refl) as (Hcalls & _ & _ & Hdef).
  split; [exact Hcalls | exact Hdef].
Defined.

(** The job item that [create] leaves, and its promise when the INCR
    failed. *)
Lemma create_job (E : JobModel.env) (NS : string) (job : JobItem.t) :
  let failed :=
    truthy (JobModel.redis_err E (JobModel.INCR (NS +:+ ":id"))) in
  JobModel.cs_job (JobModel.create E NS job)
    = (if failed then job
       else JobItem.set_id (Some (pretty (JobModel.incr_id E))) job) /\
  (failed = true ->
   exists r, JobModel.cs_def (JobModel.create E NS job) = Settled (Rejected r)).
Proof.
  intros failed. subst failed. unfold JobModel.create.
  destruct (truthy (JobModel.redis_err E (JobModel.INCR (NS +:+ ":id")))).
  - unfold JobModel.def_reject. simpl. split; [done | by eexists].
  - split; [|discriminate].
    unfold JobModel.bind, JobModel._saveQueue, JobModel.job_call,
      JobModel._saveTimeIndex, JobModel.then_, JobModel.def_reject,
      JobModel.def_resolve, JobModel.to_settled. simpl.
    repeat match goal with
           | |- context [JobModel.collaborator E ?c] =>
               destruct (JobModel.collaborator E c); simpl
           | |- context [JobModel.reject_returns_promise E] =>
               destruct (JobModel.reject_returns_promise E); simpl
           | |- context [truthy ?v] => destruct (truthy v); simpl
           end; reflexivity.
Qed.

(** X14.  [save] on an instance that has not been disposed, when the
    create succeeds: the deferred is resolved with the job item carrying
    the id that the create gave it if the user's callback returns, and it
    is rejected with what the callback threw if it throws; in both cases
    the handler returns, and so the promise that [then] returned is
    resolved. *)
Theorem save_resolves_with_new_id (E : JobModel.env) (NS : string)
    (c : Create.t) (j : JobItem.t) :
  Create._disposed c = false ->
  Create.job c = Some j ->
  Create.defer c = Pending ->
  JobModel.cs_def (JobModel.create E NS j) = Settled (Resolved ()) ->
  let s := JobModel.create E NS j in
  let created := JobItem.set_id (Some (pretty (JobModel.incr_id E))) j in
  let out := Create.save_settled s c in
  Create.save_create E NS c = Return s /\
  snd out = Settled (Resolved ()) /\
  Create.job (fst out) = Some created /\
  (Create.done c (Create.DoneOk created) = None ->
     Create.defer (fst out) = Settled (Resolved created)) /\
  (forall v, Create.done c (Create.DoneOk created) = Some v ->
     Create.defer (fst out) = Settled (Rejected (Raised v))).
Proof.
  intros Hd Hj Hp Hres s created out.
  destruct (create_job E NS j) as [Hjob Hfailed]. fold s in Hjob.
  destruct (truthy (JobModel.redis_err E (JobModel.INCR (NS +:+ ":id")))).
  { destruct (Hfailed eq_refl) as [r Hr]. rewrite Hr in Hres.
    discriminate Hres. }
  fold created in Hjob. clear Hfailed.
  split; [unfold Create.save_create; by rewrite Hj|].
  unfold out, Create.save_settled. fold s in Hres. rewrite Hres, Hj, Hjob.
  unfold Create._onSuccess. simpl. rewrite Hd, Hp.
  unfold JobItem.getPublic.
  destruct (Create.done c (Create.DoneOk created)) as [v|]; simpl.
  - repeat split; [done | by intros v' [= <-]].
  - repeat split; done.
Qed.

Lemma save_resolves_with_new_id_witness :
  let E := JobModel.mk_env (fun _ => None) (fun _ => JNull) 41 true in
  let j := JobItem.mk None "mail" (JString "hi") (Some States.NEW)
             900 true 3 true 1 50 [] false false None None JNull in
  let quiet := Create.mk Pending (Some j) Create.noop false in
  let loud := Create.mk Pending (Some j)
                (fun _ => Some (JString "callback failed")) false in
  let s := JobModel.create E "kickq" j in
  Create.defer (fst (Create.save_settled s quiet))
    = Settled (Resolved (JobItem.set_id (Some "41") j)) /\
  Create.defer (fst (Create.save_settled s loud))
    = Settled (Rejected (Raised (JString "callback failed"))).
Proof.
  intros E j quiet loud s.
  destruct (save_resolves_with_new_id E "kickq" quiet j
              eq_refl eq_refl eq_refl eq_refl) as (_ & _ & _ & Hok & _).
  destruct (save_resolves_with_new_id E "kickq" loud j
              eq_refl eq_refl eq_refl eq_refl) as (_ & _ & _ & _ & Hthrow).
  split; [apply Hok; reflexivity|].
  apply (Hthrow (JString "callback failed")). reflexivity.
Defined.

(** X25.  A [Create] that has been disposed is inert.  [save] on the
    instance is the [noop] that [dispose] installed: no job model is
    built and no call is made.  When the create that an earlier [save]
    started settles after the [dispose], either way, the handler returns
    at once: the instance and its deferred are left as [dispose] left
    them, the deferred pending if it was, and the promise that [then]
    returned is resolved. *)
Theorem disposed_create_is_inert (E : JobModel.env) (NS : string)
    (c : Create.t) (s : JobModel.chain_state) :
  let d := Create.dispose c in
  Create.save E NS d = None /\
  fst (Create.save_settled s d) = d /\
  Create.defer (fst (Create.save_settled s d)) = Create.defer c /\
  (JobModel.cs_def s <> Pending ->
     snd (Create.save_settled s d) = Settled (Resolved ())).
Proof.
  intros d. split; [reflexivity|].
  unfold Create.save_settled, d, Create.dispose. simpl.
  destruct (JobModel.cs_def s) as [|[a|r]]; simpl; by repeat split.
Qed.

Lemma disposed_create_is_inert_witness :
  let E := JobModel.mk_env (fun _ => None) (fun _ => JString "down") 1 true in
  let j := JobItem.mk None "mail" (JString "hi") (Some States.NEW)
             900 true 3 true 1 50 [] false false None None JNull in
  let c := Create.mk Pending (Some j) Create.noop false in
  let s := JobModel.create E "kickq" j in
  let d := Create.dispose c in
  Create.save E "kickq" d = None /\
  Create.defer (fst (Create.save_settled s d)) = Pending /\
  snd (Create.save_settled s d) = Settled (Resolved ()).
Proof.
  intros E j c s d.
  destruct (disposed_create_is_inert E "kickq" c s) as (H1 & _ & H3 & H4).
  refine (conj H1 (conj H3 (H4 _))).
  vm_compute. discriminate.
Defined.

(** * Further properties of the job model *)

(** X15.  What an answer to the hmget leaves of the model, when the
    handler returns.  The job id is never changed.  After a rejection the
    model is as ready for [fetch] as it was: [hasJobItem] is unchanged
    and [fetch] does what it did.  After the promise was resolved with a
    job item, the model holds this item, whose id is the model's job id,
    and [fetch] throws: a model fetches at most once. *)
Theorem fetch_at_most_once (JSON_parse : string -> string + JobModel.json)
    (NS : string) (m m' : JobModel.t) (err : jsval)
    (response : option string * option States.Job)
    (st : settled JobItem.t) :
  JobModel._fetchResponse JSON_parse m err response = Return (m', st) ->
  JobModel.jobId m' = JobModel.jobId m /\
  match st with
  | Rejected _ =>
      JobModel.hasJobItem m' = JobModel.hasJobItem m /\
      JobModel.fetch NS m' = JobModel.fetch NS m
  | Resolved j =>
      JobModel.hasJobItem m' = true /\
      JobModel.job m' = Some j /\
      JobItem.id j = JobModel.jobId m /\
      JobItem.state j = snd response /\
      JobModel.fetch NS m'
        = Throw (Error "Instance already contains a job item")
  end.
Proof.
  unfold JobModel._fetchResponse.
  destruct (truthy err); [by intros [= <- <-]|].
  destruct response as [[itemData|] state]; simpl; [|by intros [= <- <-]].
  destruct (JSON_parse itemData) as [ex|[|o]];
    [by intros [= <- <-] | discriminate |].
  unfold JobModel.new_JobItem. simpl.
  destruct (decide (JobModel.jobId m = JobItem.id o)) as [Heq|Hne].
  - rewrite bool_decide_eq_true_2 by done. simpl. intros [= <- <-].
    by repeat split.
  - rewrite bool_decide_eq_false_2 by done. simpl. intros [= <- <-].
    by repeat split.
Qed.

Lemma fetch_at_most_once_witness :
  let stored := JobItem.mk (Some "7") "mail" (JString "hi")
                  (Some States.PROCESSING) 900 true 3 true 1 50 [] false false
                  None None JNull in
  let parse (s : string) : string + JobModel.json :=
    inr (JobModel.JsonObject stored) in
  let m := JobModel.mk None (Some "7") false in
  let m' := JobModel.mk (Some (JobItem.set_state (Some States.NEW) stored))
              (Some "7") true in
  JobModel.fetch "kickq" m
    = Return [JobModel.HMGET "kickq:job:7" ["itemData"; "state"]] /\
  JobModel.fetch "kickq" m'
    = Throw (Error "Instance already contains a job item").
Proof.
  intros stored parse m m'.
  split; [reflexivity|].
  apply (fetch_at_most_once parse "kickq" m m' JNull
           (Some "{}", Some States.NEW)
           (Resolved (JobItem.set_state (Some States.NEW) stored)) eq_refl).
Defined.

(** * Further properties of the constructors *)

(** X16.  The arguments that the constructor of a worker refuses.
    Without a function as second or third argument it throws a
    [TypeError], whatever the job names are; with one, it throws an
    [Error] exactly when the first argument is neither a string nor an
    array that is not empty.  The empty string passes as a job name. *)
Theorem parseArguments_refusals {F : Type}
    (jobName optOpts optCb optSelf : Args.arg F) :
  (Args.isFunction optOpts = false -> Args.isFunction optCb = false ->
     WorkerCtor._parseArguments jobName optOpts optCb optSelf
     = Throw (TypeError "No worker callback provided")) /\
  (Args.isFunction optOpts || Args.isFunction optCb = true ->
     (WorkerCtor._parseArguments jobName optOpts optCb optSelf
      = Throw (Error "No valid jobs found for processing") <->
      (forall s, jobName <> Args.Val (JString s)) /\
      (forall n names, jobName <> Args.Arr (n :: names))) /\
     (forall s, jobName = Args.Val (JString s) ->
        exists p, WorkerCtor._parseArguments jobName optOpts optCb optSelf
                  = Return p /\ WorkerCtor.jobNames p = [s]) /\
     (forall n names, jobName = Args.Arr (n :: names) ->
        exists p, WorkerCtor._parseArguments jobName optOpts optCb optSelf
                  = Return p /\ WorkerCtor.jobNames p = n :: names)).
Proof.
  split.
  - intros Ho Hc. unfold WorkerCtor._parseArguments, WorkerCtor.parse.
    destruct optOpts; try discriminate; destruct optCb; try discriminate;
      reflexivity.
  - intros Hfn.
    assert (Hsome : exists f,
      WorkerCtor.consumerWorkerFn
        (WorkerCtor.parse jobName optOpts optCb optSelf) = Some f).
    { unfold WorkerCtor.parse.
      destruct optOpts; destruct optCb; try discriminate; by eexists. }
    destruct Hsome as [f Hf].
    unfold WorkerCtor._parseArguments. rewrite Hf.
    refine (conj _ (conj _ _)).
    + split.
      * destruct jobName as [[| | | |s| |]|[|n names]| |]; simpl;
          try discriminate; intros _; split; intros; discriminate.
      * intros [Hs Ha].
        destruct jobName as [[| | | |s| |]|[|n names]| |]; simpl;
          try reflexivity.
        -- by destruct (Hs s).
        -- by destruct (Ha n names).
    + intros s ->. simpl. by eexists.
    + intros n names ->. simpl. by eexists.
Qed.

Lemma parseArguments_refusals_witness :
  WorkerCtor._parseArguments (F:=nat) (Args.Val (JString "mail"))
    (Args.Opts (JNumber 2)) (Args.Val JUndefined) (Args.Val JUndefined)
    = Throw (TypeError "No worker callback provided") /\
  WorkerCtor._parseArguments (F:=nat) (Args.Arr [])
    (Args.Fun 0%nat) (Args.Val JUndefined) (Args.Val JUndefined)
    = Throw (Error "No valid jobs found for processing") /\
  (exists p, WorkerCtor._parseArguments (F:=nat) (Args.Val (JString ""))
               (Args.Fun 0%nat) (Args.Val JUndefined) (Args.Val JUndefined)
             = Return p /\ WorkerCtor.jobNames p = [""]).
Proof.
  refine (conj _ (conj _ _)).
  - apply (proj1 (parseArguments_refusals (F:=nat) (Args.Val (JString "mail"))
                    (Args.Opts (JNumber 2)) (Args.Val JUndefined)
                    (Args.Val JUndefined))); reflexivity.
  - apply (proj1 (proj2 (parseArguments_refusals (F:=nat) (Args.Arr [])
                           (Args.Fun 0%nat) (Args.Val JUndefined)
                           (Args.Val JUndefined)) eq_refl)).
    split; intros; discriminate.
  - apply (proj1 (proj2 (proj2 (parseArguments_refusals (F:=nat)
                                  (Args.Val (JString ""))
                                  (Args.Fun 0%nat) (Args.Val JUndefined)
                                  (Args.Val JUndefined)) eq_refl))).
    reflexivity.
Defined.

(** X17.  How the constructor of a worker reads its arguments.  The
    consumer is the second argument when that is a function, and else
    the third.  The context of the consumer is the third argument
    whenever that is an object, and a function is one: with a callback in
    third place, the callback itself becomes the context, whatever the
    fourth argument is; the fourth argument is used only when the third
    is no object. *)
Theorem parse_callback_and_context {F : Type}
    (jobName optOpts optCb optSelf : Args.arg F) :
  let p := WorkerCtor.parse jobName optOpts optCb optSelf in
  (forall f, optOpts = Args.Fun f -> WorkerCtor.consumerWorkerFn p = Some f) /\
  (forall f, Args.isFunction optOpts = false -> optCb = Args.Fun f ->
     WorkerCtor.consumerWorkerFn p = Some f) /\
  (Args.isObject optCb = true -> WorkerCtor.selfObj p = Some optCb) /\
  (forall f, optCb = Args.Fun f -> WorkerCtor.selfObj p = Some (Args.Fun f)) /\
  (Args.isObject optCb = false ->
     WorkerCtor.selfObj p
     = if Args.isObject optSelf then Some optSelf else None).
Proof.
  intros p. subst p. unfold WorkerCtor.parse. simpl.
  refine (conj _ (conj _ (conj _ (conj _ _)))).
  - by intros f ->.
  - intros f Ho ->. by destruct optOpts.
  - by intros ->.
  - by intros f ->.
  - by intros ->.
Qed.

Lemma parse_callback_and_context_witness :
  let p := WorkerCtor.parse (F:=nat) (Args.Val (JString "mail"))
             (Args.Opts (JNumber 2)) (Args.Fun 7%nat)
             (Args.Val (JObject "context")) in
  WorkerCtor.consumerWorkerFn p = Some 7%nat /\
  WorkerCtor.selfObj p = Some (Args.Fun 7%nat) /\
  WorkerCtor.selfObj
    (WorkerCtor.parse (F:=nat) (Args.Val (JString "mail")) (Args.Fun 7%nat)
       (Args.Val JUndefined) (Args.Val (JObject "context")))
  = Some (Args.Val (JObject "context")).
Proof.
  intros p.
  refine (conj _ (conj _ _)).
  - apply (proj1 (proj2 (parse_callback_and_context (F:=nat)
                           (Args.Val (JString "mail")) (Args.Opts (JNumber 2))
                           (Args.Fun 7%nat) (Args.Val (JObject "context")))));
      reflexivity.
  - apply (proj1 (proj2 (proj2 (proj2 (parse_callback_and_context (F:=nat)
                           (Args.Val (JString "mail")) (Args.Opts (JNumber 2))
                           (Args.Fun 7%nat) (Args.Val (JObject "context")))))));
      reflexivity.
  - rewrite (proj2 (proj2 (proj2 (proj2 (parse_callback_and_context (F:=nat)
                           (Args.Val (JString "mail")) (Args.Fun 7%nat)
                           (Args.Val JUndefined)
                           (Args.Val (JObject "context"))))))); reflexivity.
Defined.

(** X18.  The worker that the constructor builds.  Its target of
    concurrent jobs is the number given as [concurrentJobs] in the
    options, and 1 when there is none or when it is no number; the
    throttle buffer is 5 longer; nothing is in flight, the throttle is
    off and the instance is not disposed.  [work] on it makes one pass
    of the master loop and asks for as many jobs as the target says, for
    none when the target is not positive. *)
Theorem worker_as_constructed {F : Type}
    (jobName optOpts optCb optSelf : Args.arg F) (w : Worker.t)
    (p : WorkerCtor.parsed F) (e : Worker.io) :
  WorkerCtor.Worker jobName optOpts optCb optSelf = Return (w, p) ->
  Worker.concurrentJobs w
    = match optOpts with
      | Args.Opts (JNumber n) => n
      | _ => 1
      end /\
  Worker.throttleBufferLen w = Worker.concurrentJobs w + 5 /\
  Worker.jobNames w = WorkerCtor.jobNames p /\
  Worker.jobNames w <> [] /\
  Worker._processing w = ∅ /\
  Worker._throttleOn w = false /\ Worker._throttleCall w = [] /\
  Worker._disposed w = false /\
  WorkerCtor.work e w
    = (Worker.set_loopCount 1 w,
       replicate (Z.to_nat (Worker.concurrentJobs w))
         (Worker.PopFetch (Worker.jobNames w))).
Proof.
  unfold WorkerCtor.Worker, WorkerCtor._parseArguments.
  set (p0 := WorkerCtor.parse jobName optOpts optCb optSelf).
  destruct (WorkerCtor.consumerWorkerFn p0) as [f|] eqn:Hf; [|discriminate].
  destruct (Nat.eqb (length (WorkerCtor.jobNames p0)) 0) eqn:Hn;
    [discriminate|].
  intros [= <- <-].
  assert (Hnames : WorkerCtor.jobNames p0 <> []).
  { intros Hnil. rewrite Hnil in Hn. discriminate Hn. }
  assert (Hc : WorkerCtor.optConcurrentJobs p0
               = match optOpts with
                 | Args.Opts (JNumber n) => Some n
                 | _ => None
                 end).
  { unfold WorkerCtor.optConcurrentJobs, p0, WorkerCtor.parse. simpl.
    destruct optOpts as [[| | | | | |]| |[| | | | | |]|]; reflexivity. }
  unfold Worker.Worker, WorkerCtor.work, Worker._masterLoop.
  rewrite Hc. simpl. rewrite map_size_empty, Z.sub_0_r.
  split; [by destruct optOpts as [|?|[| | | | | |]|]|].
  repeat split; try reflexivity. exact Hnames.
Qed.

Lemma worker_as_constructed_witness :
  let e := Worker.mk_io (fun _ => 1000) 1%nat in
  exists w p,
    WorkerCtor.Worker (F:=nat) (Args.Arr ["mail"; "sms"])
      (Args.Opts (JNumber 3)) (Args.Fun 7%nat) (Args.Val JUndefined)
    = Return (w, p) /\
    Worker.concurrentJobs w = 3 /\ Worker.throttleBufferLen w = 8 /\
    snd (WorkerCtor.work e w)
    = replicate 3 (Worker.PopFetch ["mail"; "sms"]).
Proof.
  intros e. eexists _, _. split; [reflexivity|].
  match goal with
  | |- Worker.concurrentJobs ?w = _ /\ _ =>
      destruct (worker_as_constructed (F:=nat) (Args.Arr ["mail"; "sms"])
                  (Args.Opts (JNumber 3)) (Args.Fun 7%nat)
                  (Args.Val JUndefined) w _ e eq_refl)
        as (Hc & Hb & _ & _ & _ & _ & _ & _ & Hwork)
  end.
  split; [exact Hc|]. split; [exact Hb|]. by rewrite Hwork.
Defined.

(** X19.  How the constructor of [Create] reads its arguments.  The
    callback is the first function among the data, the options and the
    callback argument, in this order, and a callback that does nothing
    when there is none.  The data of the job is the second argument
    unless that is a function or undefined, in which case the job keeps
    the data of a blank job item; null is data.  The instance starts with
    a pending deferred and is not disposed. *)
Theorem create_reads_arguments (blank : JobItem.t)
    (initialize : option (Args.arg CreateCtor.callback) ->
                  JobItem.t -> JobItem.t)
    (jobName : string) (optData : CreateCtor.data_arg)
    (optOpts optCb : Args.arg CreateCtor.callback) :
  let c := CreateCtor.Create blank initialize jobName optData optOpts optCb in
  let named := CreateCtor.set_name jobName blank in
  (Create.defer c = Pending /\ Create._disposed c = false) /\
  (forall f, optData = CreateCtor.DataFun f -> Create.done c = f) /\
  (forall v f, optData = CreateCtor.Data v -> optOpts = Args.Fun f ->
     Create.done c = f) /\
  (forall v f, optData = CreateCtor.Data v ->
     Args.isFunction optOpts = false -> optCb = Args.Fun f ->
     Create.done c = f) /\
  (forall v, optData = CreateCtor.Data v ->
     Args.isFunction optOpts = false -> Args.isFunction optCb = false ->
     Create.done c = Create.noop) /\
  (forall v, optData = CreateCtor.Data v -> v <> JUndefined ->
     exists opts,
       Create.job c = Some (initialize opts (CreateCtor.set_data v named))) /\
  (optData = CreateCtor.Data JUndefined \/
   (exists f, optData = CreateCtor.DataFun f) ->
     exists opts, Create.job c = Some (initialize opts named)) /\
  (forall f, optOpts = Args.Fun f ->
     exists job, Create.job c = Some (initialize None job)).
Proof.
  intros c named. subst c. unfold CreateCtor.Create. fold named. simpl.
  refine (conj _ (conj _ (conj _ (conj _ (conj _ (conj _ (conj _ _))))))).
  - by split.
  - by intros f ->.
  - by intros v f -> ->.
  - intros v f -> Ho ->. by destruct optOpts.
  - intros v -> Ho Hc. destruct optOpts; try discriminate;
      destruct optCb; try discriminate; reflexivity.
  - intros v -> Hv. rewrite bool_decide_eq_false_2 by done. by eexists.
  - intros [-> | [f ->]]; by eexists.
  - intros f ->. simpl. by eexists.
Qed.

Lemma create_reads_arguments_witness :
  let blank := JobItem.mk None "" JNull (Some States.NEW) 900 false 3 true 1
                 50 [] false false None None JNull in
  let initialize (_ : option (Args.arg CreateCtor.callback)) (j : JobItem.t) :=
    j in
  let cb : CreateCtor.callback := fun _ => Some (JString "seen") in
  let c := CreateCtor.Create blank initialize "mail" (CreateCtor.DataFun cb)
             (Args.Val JUndefined) (Args.Val JUndefined) in
  let c' := CreateCtor.Create blank initialize "mail" (CreateCtor.Data JNull)
              (Args.Opts JUndefined) (Args.Fun cb) in
  Create.done c = cb /\
  (exists opts, Create.job c
                = Some (initialize opts (CreateCtor.set_name "mail" blank))) /\
  Create.done c' = cb /\
  (exists opts,
     Create.job c'
     = Some (initialize opts
               (CreateCtor.set_data JNull (CreateCtor.set_name "mail" blank)))).
Proof.
  intros blank initialize cb c c'.
  pose proof (create_reads_arguments blank initialize "mail"
                (CreateCtor.DataFun cb) (Args.Val JUndefined)
                (Args.Val JUndefined)) as (_ & Hfun & _ & _ & _ & _ & Hblank & _).
  pose proof (create_reads_arguments blank initialize "mail"
                (CreateCtor.Data JNull) (Args.Opts JUndefined) (Args.Fun cb))
    as (_ & _ & _ & Hcb & _ & Hdata & _).
  refine (conj _ (conj _ (conj _ _))).
  - apply Hfun. reflexivity.
  - apply Hblank. right. by eexists.
  - apply (Hcb JNull cb); reflexivity.
  - apply (Hdata JNull); [reflexivity | discriminate].
Defined.

(** * Further properties of the worker loop *)

Lemma step_disposed (e : Worker.io) (ev : Lifecycle.event) (w : Worker.t) :
  Worker._disposed w = true ->
  Worker._processing w = ∅ ->
  Worker._disposed (fst (Lifecycle.step e ev w)) = true /\
  Worker._processing (fst (Lifecycle.step e ev w)) = ∅ /\
  Forall (fun eff => is_teardown eff = true) (snd (Lifecycle.step e ev w)) /\
  (ev <> Lifecycle.Dispose -> snd (Lifecycle.step e ev w) = []).
Proof.
  intros Hd Hp.
  destruct ev as [c job|job optErr|job|optErr| |]; simpl.
  - unfold Worker._workStart. rewrite Hd. by repeat split.
  - unfold Worker._workFinish. rewrite Hd. by repeat split.
  - unfold Worker._workTimeout. rewrite Hd. by repeat split.
  - unfold Worker._masterLoop. rewrite Hd. by repeat split.
  - unfold Worker.throttle_resume, Worker._masterLoop. simpl. rewrite Hd.
    by repeat split.
  - repeat split; [|done].
    destruct (Worker._throttleOn w); by repeat constructor.
Qed.

(** X20.  A worker that has been disposed is inert.  [dispose] empties
    the map of the jobs in flight, clears the timer of the throttle when
    the throttle is on and no other timer, and disposes of the pop model.
    Whatever re-enters the worker afterwards, a job a pop delivers, a
    completion callback, the timer of a job, the master loop, the timer
    of the throttle: no job is asked for, no consumer is called, no
    timer is set, no outcome is processed, and nothing is in flight. *)
Theorem disposed_worker_is_inert (w : Worker.t)
    (evs : list (Worker.io * Lifecycle.event)) :
  let disposed := Worker.dispose w in
  let out := Lifecycle.run evs (fst disposed) in
  snd disposed
    = (if Worker._throttleOn w
       then [Worker.ClearTimeout (Worker._throttleTimeout w)] else [])
      ++ [Worker.PopDispose] /\
  Worker._disposed (fst out) = true /\
  Worker._processing (fst out) = ∅ /\
  Forall (fun eff => is_teardown eff = true) (snd out) /\
  (Forall (fun ev => snd ev <> Lifecycle.Dispose) evs -> snd out = []).
Proof.
  intros disposed out. split; [reflexivity|].
  assert (H : forall w0, Worker._disposed w0 = true ->
    Worker._processing w0 = ∅ ->
    Worker._disposed (fst (Lifecycle.run evs w0)) = true /\
    Worker._processing (fst (Lifecycle.run evs w0)) = ∅ /\
    Forall (fun eff => is_teardown eff = true) (snd (Lifecycle.run evs w0)) /\
    (Forall (fun ev => snd ev <> Lifecycle.Dispose) evs ->
     snd (Lifecycle.run evs w0) = [])).
  { induction evs as [|[e ev] evs IH]; intros w0 Hd Hp; simpl.
    - by repeat split.
    - destruct (step_disposed e ev w0 Hd Hp) as (Hd1 & Hp1 & He1 & Hn1).
      destruct (Lifecycle.step e ev w0) as [w1 eff1]; simpl in *.
      destruct (IH w1 Hd1 Hp1) as (Hd2 & Hp2 & He2 & Hn2).
      destruct (Lifecycle.run evs w1) as [w2 eff2]; simpl in *.
      repeat split; try done.
      + by apply Forall_app.
      + intros Hevs. apply Forall_cons in Hevs as [Hev Hevs]. simpl in Hev.
        by rewrite Hn1, Hn2. }
  apply H; reflexivity.
Qed.

Lemma disposed_worker_is_inert_witness :
  let e := Worker.mk_io (fun _ => 1000) 1%nat in
  let job := JobItem.mk (Some "1") "mail" (JString "hi")
               (Some States.PROCESSING) 900 true 3 true 1 50 [] false false
               None None JNull in
  let w := Worker.worker
             (fst (Worker._workStart e Worker.Returns job
                     (Worker.Worker ["mail"] None))) in
  let evs := [(e, Lifecycle.TimerFired job); (e, Lifecycle.Done job JNull);
              (e, Lifecycle.Loop JNull);
              (e, Lifecycle.Dispatch Worker.Returns job)] in
  snd (Lifecycle.run evs (fst (Worker.dispose w))) = [].
Proof.
  intros e job w evs.
  apply (proj2 (proj2 (proj2 (proj2 (disposed_worker_is_inert w evs))))).
  repeat constructor; discriminate.
Defined.

(** One pass of the master loop on a worker whose throttle is at rest or
    on, in a turn whose clock readings are close: the throttle is at rest
    or on afterwards, and a pass entered with an error asks for no job. *)
Lemma masterLoop_throttle_settled (e : Worker.io) (optErr : jsval)
    (w : Worker.t) :
  0 < Worker.throttleBufferLen w ->
  prompt e ->
  throttle_settled w ->
  let out := Worker._masterLoop e optErr w in
  Worker.throttleBufferLen (fst out) = Worker.throttleBufferLen w /\
  throttle_settled (fst out) /\
  (truthy optErr = true ->
     Forall (fun eff => is_pop eff = false) (snd out) /\
     Worker.loopCount (fst out) = Worker.loopCount w /\
     (Worker._disposed w = false -> Worker._throttleOn (fst out) = true)).
Proof.
  intros Hlen Hprompt Hsettled out. subst out. unfold Worker._masterLoop.
  destruct (Worker._disposed w) eqn:Hd.
  { split; [done|]. split; [done|]. intros _. by repeat split. }
  destruct (truthy optErr).
  2:{ simpl. split; [done|]. split; [exact Hsettled | discriminate]. }
  destruct (Worker._throttleOn w) eqn:Hon.
  { unfold Worker._throttleLoop. rewrite Hon. simpl.
    split; [done|]. split; [by right|]. intros _.
    split; [by repeat constructor | by split]. }
  destruct Hsettled as [Hbuf | Hbad]; [|congruence].
  destruct (throttleLoop_spec e w Hon Hd Hlen) as (oldest & Hhead & ->).
  rewrite Hbuf in Hhead. unfold last_entries in Hhead. simpl in Hhead.
  replace (1 - Z.to_nat (Worker.throttleBufferLen w))%nat with 0%nat
    in Hhead by lia.
  injection Hhead as <-.
  unfold prompt in Hprompt.
  destruct (Z.gtb_spec (Worker.date_now e 1 - Worker.date_now e 0)
              Worker.THROTTLE_LIMIT); [lia|].
  simpl. split; [done|]. split; [by right|]. intros _.
  split; [by repeat constructor | by split].
Qed.

Lemma step_throttle_settled (e : Worker.io) (ev : Lifecycle.event)
    (w : Worker.t) :
  0 < Worker.throttleBufferLen w ->
  prompt e ->
  throttle_settled w ->
  0 < Worker.throttleBufferLen (fst (Lifecycle.step e ev w)) /\
  throttle_settled (fst (Lifecycle.step e ev w)).
Proof.
  intros Hlen Hprompt Hsettled.
  assert (Hloop : forall v w0,
    Worker.throttleBufferLen w0 = Worker.throttleBufferLen w ->
    throttle_settled w0 ->
    0 < Worker.throttleBufferLen (fst (Worker._masterLoop e v w0)) /\
    throttle_settled (fst (Worker._masterLoop e v w0))).
  { intros v w0 Hw0 Hs0.
    destruct (masterLoop_throttle_settled e v w0) as (Hb & Hs & _);
      [lia | done | done |]. split; [lia | done]. }
  destruct ev as [c job|job optErr|job|optErr| |]; simpl.
  - unfold Worker._workStart. destruct (Worker._disposed w) eqn:Hd; [done|].
    destruct c; [done|]. simpl.
    unfold Worker._workFinish. simpl. rewrite Hd, lookup_insert_eq.
    by destruct (Worker.determine_success ex).
  - unfold Worker._workFinish. destruct (Worker._disposed w); [done|].
    destruct (Worker._processing w !! JobItem.id job).
    + by destruct (Worker.determine_success optErr).
    + specialize (Hloop JUndefined w eq_refl Hsettled).
      by destruct (Worker._masterLoop e JUndefined w).
  - unfold Worker._workTimeout. destruct (Worker._disposed w); [done|].
    destruct (Worker._processing w !! JobItem.id job); [done|].
    specialize (Hloop JUndefined w eq_refl Hsettled).
    by destruct (Worker._masterLoop e JUndefined w).
  - by apply Hloop.
  - unfold Worker.throttle_resume. apply Hloop; [done | by left].
  - done.
Qed.

Lemma run_throttle_settled (evs : list (Worker.io * Lifecycle.event)) :
  forall w : Worker.t,
  0 < Worker.throttleBufferLen w ->
  Forall (fun ev => prompt (fst ev)) evs ->
  throttle_settled w ->
  0 < Worker.throttleBufferLen (fst (Lifecycle.run evs w)) /\
  throttle_settled (fst (Lifecycle.run evs w)).
Proof.
  induction evs as [|[e ev] evs IH]; intros w Hlen Hevs Hsettled; simpl.
  - by split.
  - apply Forall_cons in Hevs as [He Hevs]. simpl in He.
    destruct (step_throttle_settled e ev w Hlen He Hsettled) as [Hlen1 Hs1].
    destruct (Lifecycle.step e ev w) as [w1 eff1]; simpl in *.
    specialize (IH w1 Hlen1 Hevs Hs1).
    by destruct (Lifecycle.run evs w1) as [w2 eff2].
Qed.

(** X21. The throttle has no warm-up: on a worker with a buffer of
    positive length and a clock that advances by at most [THROTTLE_LIMIT]
    within a turn, after any history a pass of the master loop that is
    entered with an error asks the queue for no job and does not count as
    a loop; unless the worker is disposed, the throttle is on after it. *)
Theorem error_pass_never_pops (names : list string) (opt : option Z)
    (evs : list (Worker.io * Lifecycle.event)) (e : Worker.io)
    (optErr : jsval) :
  - Worker.BUFFER_GRACE < default 1 opt ->
  Forall (fun ev => prompt (fst ev)) evs ->
  prompt e ->
  truthy optErr = true ->
  let w := fst (Lifecycle.run evs (Worker.Worker names opt)) in
  let out := Worker._masterLoop e optErr w in
  Forall (fun eff => is_pop eff = false) (snd out) /\
  Worker.loopCount (fst out) = Worker.loopCount w /\
  (Worker._disposed w = false -> Worker._throttleOn (fst out) = true).
Proof.
  intros Hopt Hevs He Herr w out.
  destruct (run_throttle_settled evs (Worker.Worker names opt)) as [Hlen Hs].
  - simpl. lia.
  - exact Hevs.
  - by left.
  - destruct (masterLoop_throttle_settled e optErr w Hlen He Hs)
      as (_ & _ & H).
    by apply H.
Qed.

Lemma error_pass_never_pops_witness :
  let e := Worker.mk_io (fun n => 1000 + Z.of_nat n) 7 in
  let w := fst (Lifecycle.run [(e, Lifecycle.Loop JUndefined)]
                  (Worker.Worker ["mail"%string] (Some 2))) in
  let out := Worker._masterLoop e (JString "redis is down") w in
  Forall (fun eff => is_pop eff = false) (snd out) /\
  Worker.loopCount (fst out) = Worker.loopCount w /\
  (Worker._disposed w = false -> Worker._throttleOn (fst out) = true).
Proof.
  intros e.
  apply (error_pass_never_pops ["mail"%string] (Some 2)
           [(e, Lifecycle.Loop JUndefined)] e (JString "redis is down")).
  - vm_compute. reflexivity.
  - repeat constructor. unfold prompt. vm_compute. discriminate.
  - unfold prompt. vm_compute. discriminate.
  - reflexivity.
Defined.

(** One pass of the master loop without an error on a live worker. *)
Lemma masterLoop_plain (e : Worker.io) (optErr : jsval) (w : Worker.t) :
  Worker._disposed w = false ->
  truthy optErr = false ->
  Worker._masterLoop e optErr w =
    (Worker.set_loopCount (Worker.loopCount w + 1) w,
     replicate (Z.to_nat (Worker.concurrentJobs w
                          - Z.of_nat (size (Worker._processing w))))
               (Worker.PopFetch (Worker.jobNames w))).
Proof.
  intros Hd Herr. unfold Worker._masterLoop. by rewrite Hd, Herr.
Qed.

(** X22. The master loop counts the jobs in the in-flight map and not the
    pops it has asked for: [n] passes without an error on a live worker,
    with no pop answered in between, ask for [n] times the free slots, and
    count as [n] loops. *)
Theorem loop_ignores_outstanding_pops (es : list Worker.io)
    (optErr : jsval) :
  forall w : Worker.t,
  Worker._disposed w = false ->
  truthy optErr = false ->
  let out :=
    Lifecycle.run (map (fun e => (e, Lifecycle.Loop optErr)) es) w in
  snd out =
    replicate (length es * Z.to_nat (Worker.concurrentJobs w
                          - Z.of_nat (size (Worker._processing w))))
              (Worker.PopFetch (Worker.jobNames w)) /\
  Worker.loopCount (fst out) = Worker.loopCount w + Z.of_nat (length es) /\
  Worker._processing (fst out) = Worker._processing w.
Proof.
  induction es as [|e es IH]; intros w Hd Herr; simpl.
  - split; [done|]. split; [lia | done].
  - rewrite (masterLoop_plain e optErr w Hd Herr).
    set (w1 := Worker.set_loopCount (Worker.loopCount w + 1) w).
    destruct (IH w1 Hd Herr) as (Heff & Hcount & Hproc).
    destruct (Lifecycle.run _ w1) as [w2 eff2]; simpl in *.
    rewrite Heff, replicate_add.
    split; [done|]. split; [lia | done].
Qed.

Lemma loop_ignores_outstanding_pops_witness :
  let e := Worker.mk_io (fun n => 1000 + Z.of_nat n) 7 in
  let w := Worker.Worker ["mail"%string] (Some 2) in
  let out :=
    Lifecycle.run (map (fun e => (e, Lifecycle.Loop JNull)) [e; e; e]) w in
  snd out =
    replicate (length [e; e; e] * Z.to_nat (Worker.concurrentJobs w
                          - Z.of_nat (size (Worker._processing w))))
              (Worker.PopFetch (Worker.jobNames w)) /\
  Worker.loopCount (fst out) = Worker.loopCount w + Z.of_nat (length [e; e; e]) /\
  Worker._processing (fst out) = Worker._processing w.
Proof.
  intros e w.
  apply (loop_ignores_outstanding_pops [e; e; e] JNull w); reflexivity.
Defined.
